(* ===================================================================== *)
(*  blue-guy: remote workspace file service, FUSE proxy, auto-commit      *)
(*                                                                         *)
(*  A shallow embedding of the Go sources                                  *)
(*    internal/host/fileserver.go   (FileServer, resolve, goModeToUnix,    *)
(*                                   osErrToStatus, the RPC handlers)      *)
(*    internal/client/remotefs.go   (RemoteFS, fillStat, errToFuse)        *)
(*    internal/gitops/debouncer.go  (Debouncer)                            *)
(*    internal/gitops/gitops.go     (GitOps.commitAndPush)                 *)
(*  together with the parts of the Go standard library they call           *)
(*  (path/filepath.Clean and Join, os error predicates, os.FileMode).      *)
(*                                                                         *)
(*  Go strings are byte strings: they are modelled by [string].  Sized     *)
(*  integers are modelled by [Z] with the wrap-around written out.         *)
(* ===================================================================== *)

From Stdlib Require Import ZArith List String Ascii Bool Lia DecimalString.
From stdpp Require Import base option list strings gmap.

Import ListNotations.
Local Open Scope string_scope.
Local Open Scope list_scope.
Local Open Scope Z_scope.

(* ===================================================================== *)
(*  Part I.  Definitions                                                   *)
(* ===================================================================== *)

(* --------------------------------------------------------------------- *)
(*  Machine integers                                                       *)
(* --------------------------------------------------------------------- *)

(** Two's-complement reduction of an integer to the range of Go's int64. *)
Definition wrap64 (z : Z) : Z := (z + 2 ^ 63) mod 2 ^ 64 - 2 ^ 63.

(** Reduction to the range of Go's uint32. *)
Definition wrap_u32 (z : Z) : Z := z mod 2 ^ 32.

(** Go's [len] of a byte slice or string, as an int. *)
Definition len {A} (l : list A) : Z := Z.of_nat (List.length l).

(* --------------------------------------------------------------------- *)
(*  Literals                                                               *)
(* --------------------------------------------------------------------- *)

(** Go octal literals: [oct "0644"] is 0o644. *)
Definition oct_digit (c : ascii) : Z := Z.of_nat (nat_of_ascii c) - 48.

Fixpoint oct_acc (s : string) (acc : Z) : Z :=
  match s with
  | EmptyString => acc
  | String c rest => oct_acc rest (8 * acc + oct_digit c)
  end.

Definition oct (s : string) : Z := oct_acc s 0.

(* --------------------------------------------------------------------- *)
(*  gRPC status codes and Go errors                                        *)
(* --------------------------------------------------------------------- *)

Module codes.
(** google.golang.org/grpc/codes.Code *)
Inductive Code : Set :=
| OK | Canceled | Unknown | InvalidArgument | DeadlineExceeded
| NotFound | AlreadyExists | PermissionDenied | ResourceExhausted
| FailedPrecondition | Aborted | OutOfRange | Unimplemented
| Internal | Unavailable | DataLoss | Unauthenticated.
End codes.
Import codes.

Module syscall.
(** syscall.Errno values (Linux numbering). *)
Definition EPERM : Z := 1.
Definition ENOENT : Z := 2.
Definition EIO : Z := 5.
Definition EACCES : Z := 13.
Definition EEXIST : Z := 17.
Definition ENOTDIR : Z := 20.
Definition EISDIR : Z := 21.
Definition EINVAL : Z := 22.
Definition ENOTEMPTY : Z := 39.
Definition EBUSY : Z := 16.

(** The file type field of st_mode and the bits beside it. *)
Definition S_IFMT : Z := oct "170000".
Definition S_IFBLK : Z := oct "060000".
Definition S_IFCHR : Z := oct "020000".
Definition S_IFDIR : Z := oct "040000".
Definition S_IFIFO : Z := oct "010000".
Definition S_IFLNK : Z := oct "120000".
Definition S_IFREG : Z := oct "100000".
Definition S_IFSOCK : Z := oct "140000".
Definition S_ISGID : Z := oct "2000".
Definition S_ISUID : Z := oct "4000".
Definition S_ISVTX : Z := oct "1000".
End syscall.

(** The sentinel errors of internal/oserror that the os predicates test. *)
Inductive sentinel : Set :=
| ErrInvalid | ErrPermission | ErrExist | ErrNotExist | ErrClosed.

(** Go error values, as far as the modelled code can tell them apart:
    a raw [syscall.Errno], an os sentinel, [io.EOF], the three wrapper
    types that [os.underlyingError] unwraps, a gRPC status error, an
    [fmt.Errorf("...: %w", err)] wrapper, and any other error, known only
    by its message. *)
Inductive error : Set :=
| Errno (e : Z)
| Sentinel (s : sentinel)
| EOF
| PathError (op path : string) (err : error)
| LinkError (op old new : string) (err : error)
| SyscallError (call : string) (err : error)
| StatusError (c : Code) (msg : string)
| Wrapped (prefix : string) (err : error)
| ErrorString (msg : string).

(** Results of fallible Go functions: [(v, nil)] or [(_, err)]. *)
Inductive result (A : Type) : Type :=
| Ok (v : A)
| Err (e : error).
Arguments Ok {A} v.
Arguments Err {A} e.

Definition itoa (z : Z) : string := NilZero.string_of_int (Z.to_int z).

Definition errno_message (e : Z) : string :=
  if e =? syscall.EPERM then "operation not permitted"
  else if e =? syscall.ENOENT then "no such file or directory"
  else if e =? syscall.EIO then "input/output error"
  else if e =? syscall.EACCES then "permission denied"
  else if e =? syscall.EEXIST then "file exists"
  else if e =? syscall.ENOTDIR then "not a directory"
  else if e =? syscall.EISDIR then "is a directory"
  else if e =? syscall.EINVAL then "invalid argument"
  else if e =? syscall.ENOTEMPTY then "directory not empty"
  else "errno " +:+ itoa e.

Definition code_name (c : Code) : string :=
  match c with
  | OK => "OK" | Canceled => "Canceled" | Unknown => "Unknown"
  | InvalidArgument => "InvalidArgument"
  | DeadlineExceeded => "DeadlineExceeded" | NotFound => "NotFound"
  | AlreadyExists => "AlreadyExists"
  | PermissionDenied => "PermissionDenied"
  | ResourceExhausted => "ResourceExhausted"
  | FailedPrecondition => "FailedPrecondition" | Aborted => "Aborted"
  | OutOfRange => "OutOfRange" | Unimplemented => "Unimplemented"
  | Internal => "Internal" | Unavailable => "Unavailable"
  | DataLoss => "DataLoss" | Unauthenticated => "Unauthenticated"
  end.

(** The method [Error() string]. *)
Fixpoint Error (err : error) : string :=
  match err with
  | Errno e => errno_message e
  | Sentinel ErrInvalid => "invalid argument"
  | Sentinel ErrPermission => "permission denied"
  | Sentinel ErrExist => "file already exists"
  | Sentinel ErrNotExist => "file does not exist"
  | Sentinel ErrClosed => "file already closed"
  | EOF => "EOF"
  | PathError op path e => op +:+ " " +:+ path +:+ ": " +:+ Error e
  | LinkError op old new e => op +:+ " " +:+ old +:+ " " +:+ new +:+ ": " +:+ Error e
  | SyscallError call e => call +:+ ": " +:+ Error e
  | StatusError c msg => "rpc error: code = " +:+ code_name c +:+ " desc = " +:+ msg
  | Wrapped prefix e => prefix +:+ ": " +:+ Error e
  | ErrorString msg => msg
  end.

Module status.
(** status.Errorf(c, prefix + "%v", err): the message is the prefix
    followed by the text of [err]. *)
Definition Errorf (c : Code) (prefix : string) (err : error) : error :=
  StatusError c (prefix +:+ Error err).

(** status.Error(c, msg) *)
Definition Error (c : Code) (msg : string) : error := StatusError c msg.

(** status.FromError for a non-nil error: a status error yields its own
    code; an error that wraps one (errors.As) yields the wrapped code;
    anything else is reported as Unknown with [ok = false]. *)
Fixpoint FromError (err : error) : Code * bool :=
  match err with
  | StatusError c _ => (c, true)
  | Wrapped _ e => FromError e
  | PathError _ _ e => FromError e
  | LinkError _ _ _ e => FromError e
  | SyscallError _ e => FromError e
  | _ => (Unknown, false)
  end.
End status.

(* --------------------------------------------------------------------- *)
(*  package os: error predicates                                           *)
(* --------------------------------------------------------------------- *)

Module os.
(** os.underlyingError: unwraps exactly one PathError, LinkError or
    SyscallError. *)
Definition underlyingError (err : error) : error :=
  match err with
  | PathError _ _ e => e
  | LinkError _ _ _ e => e
  | SyscallError _ e => e
  | _ => err
  end.

(** syscall.Errno.Is on Unix, for the three targets used below. *)
Definition Errno_Is (e : Z) (target : sentinel) : bool :=
  match target with
  | ErrPermission => (e =? syscall.EACCES) || (e =? syscall.EPERM)
  | ErrExist => (e =? syscall.EEXIST) || (e =? syscall.ENOTEMPTY)
  | ErrNotExist => e =? syscall.ENOENT
  | _ => false
  end.

Definition sentinel_eqb (a b : sentinel) : bool :=
  match a, b with
  | ErrInvalid, ErrInvalid | ErrPermission, ErrPermission
  | ErrExist, ErrExist | ErrNotExist, ErrNotExist
  | ErrClosed, ErrClosed => true
  | _, _ => false
  end.

Definition underlyingErrorIs (err : error) (target : sentinel) : bool :=
  match underlyingError err with
  | Sentinel s => sentinel_eqb s target
  | Errno e => Errno_Is e target
  | _ => false
  end.

Definition IsNotExist (err : error) : bool := underlyingErrorIs err ErrNotExist.
Definition IsPermission (err : error) : bool := underlyingErrorIs err ErrPermission.
Definition IsExist (err : error) : bool := underlyingErrorIs err ErrExist.

(** os.FileMode: a uint32 in Go's own bit layout. *)
Definition ModeDir : Z := 2 ^ 31.
Definition ModeAppend : Z := 2 ^ 30.
Definition ModeExclusive : Z := 2 ^ 29.
Definition ModeTemporary : Z := 2 ^ 28.
Definition ModeSymlink : Z := 2 ^ 27.
Definition ModeDevice : Z := 2 ^ 26.
Definition ModeNamedPipe : Z := 2 ^ 25.
Definition ModeSocket : Z := 2 ^ 24.
Definition ModeSetuid : Z := 2 ^ 23.
Definition ModeSetgid : Z := 2 ^ 22.
Definition ModeCharDevice : Z := 2 ^ 21.
Definition ModeSticky : Z := 2 ^ 20.
Definition ModeIrregular : Z := 2 ^ 19.
Definition ModePerm : Z := oct "777".

(** FileMode.Perm and FileMode.IsDir *)
Definition Perm (m : Z) : Z := Z.land m ModePerm.
Definition IsDir (m : Z) : bool := negb (Z.land m ModeDir =? 0).

(** The FileMode that os.Lstat derives from the st_mode of lstat(2)
    (fillFileStatFromSys on Linux). *)
Definition fileModeFromSys (st_mode : Z) : Z :=
  let mode := Z.land st_mode (oct "777") in
  let ty := Z.land st_mode syscall.S_IFMT in
  let mode :=
    if ty =? syscall.S_IFBLK then Z.lor mode ModeDevice
    else if ty =? syscall.S_IFCHR then Z.lor mode (Z.lor ModeDevice ModeCharDevice)
    else if ty =? syscall.S_IFDIR then Z.lor mode ModeDir
    else if ty =? syscall.S_IFIFO then Z.lor mode ModeNamedPipe
    else if ty =? syscall.S_IFLNK then Z.lor mode ModeSymlink
    else if ty =? syscall.S_IFREG then mode
    else if ty =? syscall.S_IFSOCK then Z.lor mode ModeSocket
    else mode in
  let mode :=
    if negb (Z.land st_mode syscall.S_ISGID =? 0) then Z.lor mode ModeSetgid
    else mode in
  let mode :=
    if negb (Z.land st_mode syscall.S_ISUID =? 0) then Z.lor mode ModeSetuid
    else mode in
  if negb (Z.land st_mode syscall.S_ISVTX =? 0) then Z.lor mode ModeSticky
  else mode.

(** Open flags (Linux). *)
Definition O_RDONLY : Z := 0.
Definition O_WRONLY : Z := 1.
Definition O_CREATE : Z := 64.
Definition O_EXCL : Z := 128.
Definition O_TRUNC : Z := 512.
End os.

(* --------------------------------------------------------------------- *)
(*  package path/filepath (Unix): Clean and Join                           *)
(* --------------------------------------------------------------------- *)

Module filepath.
Definition Separator : ascii := "/"%char.
Definition dot : ascii := "."%char.

Definition IsPathSeparator (c : ascii) : bool := Ascii.eqb c Separator.
Definition is_dot (c : ascii) : bool := Ascii.eqb c dot.

(** [at_end_or_sep p]: the read index is at the end of the path or at a
    separator (the tests [r+1 == n || IsPathSeparator(path[r+1])]). *)
Definition at_end_or_sep (p : list ascii) : bool :=
  match p with
  | [] => true
  | c :: _ => IsPathSeparator c
  end.

(** The inner loop of the ".." case of Clean, on the write index [w]:
      for out.w > dotdot && !IsPathSeparator(out.index(out.w)) { out.w-- } *)
Fixpoint backtrack_loop (fuel : nat) (buf : list ascii) (dotdot w : nat) : nat :=
  match fuel with
  | O => w
  | S fuel' =>
      if (dotdot <? w)%nat && negb (IsPathSeparator (nth w buf Separator))
      then backtrack_loop fuel' buf dotdot (w - 1)%nat
      else w
  end.

(** out.w--; then the loop above; the buffer is cut at the new [w]. *)
Definition backtrack (buf : list ascii) (dotdot : nat) : list ascii :=
  let w := (List.length buf - 1)%nat in
  firstn (backtrack_loop w buf dotdot w) buf.

(** The bytes of a path element, up to the next separator, and the rest. *)
Fixpoint copy_element (p : list ascii) : list ascii * list ascii :=
  match p with
  | [] => ([], [])
  | c :: rest =>
      if IsPathSeparator c then ([], p)
      else let '(el, rest') := copy_element rest in (c :: el, rest')
  end.

(** The main loop of Clean.  [p] is the unread part of the path
    (path[r:]), [out] the bytes written so far (so out.w = length out),
    [dotdot] the index where ".." must stop.  Every turn consumes at
    least one byte, so [length p] turns are enough. *)
Fixpoint clean_loop (fuel : nat) (rooted : bool) (p out : list ascii)
    (dotdot : nat) : list ascii :=
  match fuel with
  | O => out
  | S fuel' =>
      match p with
      | [] => out
      | c :: rest =>
          if IsPathSeparator c then
            (* empty path element *)
            clean_loop fuel' rooted rest out dotdot
          else if is_dot c && at_end_or_sep rest then
            (* . element *)
            clean_loop fuel' rooted rest out dotdot
          else if is_dot c && is_dot (hd Separator rest)
                  && at_end_or_sep (tl rest) then
            (* .. element: remove to last separator *)
            if (dotdot <? List.length out)%nat then
              clean_loop fuel' rooted (tl rest) (backtrack out dotdot) dotdot
            else if negb rooted then
              let out1 :=
                if (0 <? List.length out)%nat then out ++ [Separator] else out in
              let out2 := out1 ++ [dot; dot] in
              clean_loop fuel' rooted (tl rest) out2 (List.length out2)
            else
              clean_loop fuel' rooted (tl rest) out dotdot
          else
            (* real path element: add slash if needed, copy element *)
            let out1 :=
              if (rooted && negb (List.length out =? 1)%nat)
                 || (negb rooted && negb (List.length out =? 0)%nat)
              then out ++ [Separator] else out in
            let '(el, rest') := copy_element p in
            clean_loop fuel' rooted rest' (out1 ++ el) dotdot
      end
  end.

(** filepath.Clean *)
Definition Clean (path : string) : string :=
  match list_ascii_of_string path with
  | [] => "."
  | (c :: rest) as p =>
      let rooted := IsPathSeparator c in
      let out :=
        if rooted then clean_loop (List.length p) rooted rest [Separator] 1%nat
        else clean_loop (List.length p) rooted p [] 0%nat in
      match out with
      | [] => "."
      | _ => string_of_list_ascii out
      end
  end.

(** strings.Join(elem, "/") *)
Fixpoint strings_Join (elem : list string) : string :=
  match elem with
  | [] => ""
  | [e] => e
  | e :: rest => e +:+ "/" +:+ strings_Join rest
  end.

(** filepath.Join: the elements from the first non-empty one on are
    joined with the separator and cleaned. *)
Fixpoint Join (elem : list string) : string :=
  match elem with
  | [] => ""
  | e :: rest =>
      if String.eqb e "" then Join rest else Clean (strings_Join elem)
  end.

(** Base returns the last element of path.  Trailing separators are
    removed before extracting the last element; the empty path gives ".",
    a path of separators only gives the separator. *)
Fixpoint drop_separators (p : list ascii) : list ascii :=
  match p with
  | c :: rest => if IsPathSeparator c then drop_separators rest else p
  | [] => []
  end.

Fixpoint last_element (p cur : list ascii) : list ascii :=
  match p with
  | [] => cur
  | c :: rest =>
      if IsPathSeparator c then last_element rest []
      else last_element rest (cur ++ [c])
  end.

Definition Base (path : string) : string :=
  if String.eqb path "" then "."
  else
    (* Strip trailing slashes. *)
    let p := rev (drop_separators (rev (list_ascii_of_string path))) in
    (* Find the last element *)
    match last_element p [] with
    | [] => String Separator ""       (* it had only slashes *)
    | e => string_of_list_ascii e
    end.
End filepath.

Module strings.
(** strings.HasPrefix *)
Definition HasPrefix (s prefix : string) : bool := String.prefix prefix s.

(** strings.Contains *)
Fixpoint Contains (s substr : string) : bool :=
  String.prefix substr s
  || match s with
     | EmptyString => false
     | String _ rest => Contains rest substr
     end.
End strings.

(* --------------------------------------------------------------------- *)
(*  Wire messages (internal/proto/gen) and fs.FileInfo                     *)
(* --------------------------------------------------------------------- *)

(** time.Time, as seconds since the Unix epoch and nanoseconds within the
    second; [Unix] is the method Time.Unix(). *)
Record Time : Set := mkTime { unixSec : Z; nsec : Z }.
Definition Unix (t : Time) : Z := unixSec t.

(** fs.FileInfo as returned by os.Lstat: Name(), Size(), Mode(), ModTime();
    IsDir() is Mode().IsDir(). *)
Record FileInfo : Set := mkFileInfo {
  fi_Name : string;
  fi_Size : Z;          (* int64 *)
  fi_Mode : Z;          (* os.FileMode, a uint32 in Go's layout *)
  fi_ModTime : Time
}.
Definition fi_IsDir (info : FileInfo) : bool := os.IsDir (fi_Mode info).

Module pb.
Record FileInfo : Set := mkFileInfo {
  Name : string;
  Size : Z;           (* int64 *)
  Mode : Z;           (* uint32, Unix layout *)
  ModTimeUnix : Z;    (* int64 *)
  IsDir : bool
}.

Record StatRequest : Set := mkStatRequest { stat_Path : string }.
Record StatResponse : Set := mkStatResponse { Info : FileInfo }.

Record ReadFileRequest : Set := mkReadFileRequest {
  rd_Path : string; rd_Offset : Z; rd_Length : Z }.
Record ReadFileResponse : Set := mkReadFileResponse { Data : list Byte.byte }.

Record WriteFileRequest : Set := mkWriteFileRequest {
  wr_Path : string; wr_Data : list Byte.byte; wr_Offset : Z; wr_Truncate : bool }.

Record CreateRequest : Set := mkCreateRequest { cr_Path : string; cr_Mode : Z }.
Record MkdirRequest : Set := mkMkdirRequest { mk_Path : string; mk_Mode : Z }.
Record ChmodRequest : Set := mkChmodRequest { ch_Path : string; ch_Mode : Z }.
Record TruncateRequest : Set := mkTruncateRequest { tr_Path : string; tr_Size : Z }.

Record ReadDirRequest : Set := mkReadDirRequest { ls_Path : string }.
Record ReadDirResponse : Set := mkReadDirResponse { Entries : list FileInfo }.
Record RemoveRequest : Set := mkRemoveRequest { rm_Path : string }.
Record RenameRequest : Set := mkRenameRequest {
  mv_OldPath : string; mv_NewPath : string }.

(** The change types the watcher reports. *)
Inductive ChangeType : Set :=
| ChangeType_CHANGE_TYPE_CREATED
| ChangeType_CHANGE_TYPE_MODIFIED
| ChangeType_CHANGE_TYPE_DELETED
| ChangeType_CHANGE_TYPE_RENAMED.

Record FileChangeEvent : Set := mkFileChangeEvent {
  chg_Path : string; chg_Type : ChangeType }.
End pb.

(* --------------------------------------------------------------------- *)
(*  The host file system, as the os package presents it                    *)
(* --------------------------------------------------------------------- *)

(** The store maps an absolute, cleaned path to the object found there: its
    FileMode, its modification time and, for a regular file, its bytes.
    The serving process owns every object and is not privileged, so the
    owner permission bits decide access.  Path lookup is by whole path: a
    missing entry is ENOENT.  Symbolic links are not followed, special
    files cannot be read or written, and writes never run out of space. *)
Module hostfs.
Record inode : Set := mkInode {
  i_mode : Z;                   (* os.FileMode *)
  i_mtime : Time;
  i_data : list Byte.byte
}.

Record t : Type := mkFs {
  files : gmap string inode;
  clock : Time
}.

Definition ModeType : Z :=
  Z.lor os.ModeDir (Z.lor os.ModeSymlink (Z.lor os.ModeNamedPipe
    (Z.lor os.ModeSocket (Z.lor os.ModeDevice
      (Z.lor os.ModeCharDevice os.ModeIrregular))))).

Definition is_regular (i : inode) : bool := Z.land (i_mode i) ModeType =? 0.
Definition is_dir (i : inode) : bool := os.IsDir (i_mode i).
Definition can_read (i : inode) : bool := Z.testbit (i_mode i) 8.
Definition can_write (i : inode) : bool := Z.testbit (i_mode i) 7.

(** The last element of a cleaned absolute path (os.basename). *)
Fixpoint basename_acc (p : list ascii) (cur : list ascii) : list ascii :=
  match p with
  | [] => cur
  | c :: rest =>
      if filepath.IsPathSeparator c then basename_acc rest []
      else basename_acc rest (cur ++ [c])
  end.
Definition basename (path : string) : string :=
  string_of_list_ascii (basename_acc (list_ascii_of_string path) []).

(** The directory part of a cleaned absolute path (filepath.Dir). *)
Fixpoint dir_acc (p : list ascii) (done cur : list ascii) : list ascii :=
  match p with
  | [] => done
  | c :: rest =>
      if filepath.IsPathSeparator c then dir_acc rest (done ++ cur) [c]
      else dir_acc rest done (cur ++ [c])
  end.
Definition parent (path : string) : string :=
  match dir_acc (list_ascii_of_string path) [] [] with
  | [] => "/"
  | d => string_of_list_ascii d
  end.

Definition has_parent_dir (fs : t) (path : string) : bool :=
  match files fs !! parent path with
  | Some i => is_dir i
  | None => false
  end.

(** os.Lstat *)
Definition Lstat (fs : t) (name : string) : result FileInfo :=
  match files fs !! name with
  | None => Err (PathError "lstat" name (Errno syscall.ENOENT))
  | Some i =>
      Ok {| fi_Name := basename name; fi_Size := len (i_data i);
            fi_Mode := i_mode i; fi_ModTime := i_mtime i |}
  end.

(** An open *os.File: the path it was opened on and its file offset. *)
Record File : Set := mkFile { f_name : string; f_off : Z }.

Definition has_flag (flags f : Z) : bool := negb (Z.land flags f =? 0).

(** os.OpenFile(name, flags, perm) for the flag sets the server uses:
    O_RDONLY, O_WRONLY, O_WRONLY|O_TRUNC and O_CREATE|O_EXCL|O_WRONLY. *)
Definition OpenFile (fs : t) (name : string) (flags perm : Z)
    : result File * t :=
  let fail e := (Err (PathError "open" name (Errno e)), fs) in
  let wr := has_flag flags os.O_WRONLY in
  match files fs !! name with
  | None =>
      if has_flag flags os.O_CREATE then
        if has_parent_dir fs name then
          let i := {| i_mode := os.Perm perm; i_mtime := clock fs; i_data := [] |} in
          (Ok (mkFile name 0),
           {| files := <[name := i]> (files fs); clock := clock fs |})
        else fail syscall.ENOENT
      else fail syscall.ENOENT
  | Some i =>
      if has_flag flags os.O_CREATE && has_flag flags os.O_EXCL then
        fail syscall.EEXIST
      else if wr && is_dir i then fail syscall.EISDIR
      else if wr && negb (can_write i) then fail syscall.EACCES
      else if negb wr && negb (can_read i) then fail syscall.EACCES
      else if has_flag flags os.O_TRUNC && is_regular i then
        let i' := {| i_mode := i_mode i; i_mtime := clock fs; i_data := [] |} in
        (Ok (mkFile name 0),
         {| files := <[name := i']> (files fs); clock := clock fs |})
      else (Ok (mkFile name 0), fs)
  end.

(** os.Open(name) = OpenFile(name, O_RDONLY, 0); it never changes the
    store. *)
Definition Open (fs : t) (name : string) : result File :=
  fst (OpenFile fs name os.O_RDONLY 0).

(** f.Seek(offset, 0) *)
Definition Seek (f : File) (offset : Z) : result File :=
  if offset <? 0 then Err (PathError "seek" (f_name f) (Errno syscall.EINVAL))
  else Ok (mkFile (f_name f) offset).

(** f.Read(buf) with len(buf) = [n]: the bytes read and the error, as
    the pair (buf[:n], err).  At end of file Go reports (0, io.EOF). *)
Definition Read (fs : t) (f : File) (n : Z) : list Byte.byte * option error :=
  match files fs !! f_name f with
  | None => ([], Some (PathError "read" (f_name f) (Sentinel ErrClosed)))
  | Some i =>
      if is_dir i then
        ([], Some (PathError "read" (f_name f) (Errno syscall.EISDIR)))
      else if negb (is_regular i) then
        ([], Some (PathError "read" (f_name f) (Errno syscall.EINVAL)))
      else if n <=? 0 then ([], None)
      else
        let chunk := firstn (Z.to_nat n) (skipn (Z.to_nat (f_off f)) (i_data i)) in
        match chunk with
        | [] => ([], Some EOF)
        | _ => (chunk, None)
        end
  end.

(** The content of a file after writing [buf] at offset [off]: a gap
    between the old end and [off] reads as zero bytes. *)
Definition write_at (data : list Byte.byte) (off : nat) (buf : list Byte.byte)
    : list Byte.byte :=
  firstn off data ++ repeat Byte.x00 (off - List.length data)
    ++ buf ++ skipn (off + List.length buf) data.

(** f.Write(buf); writing no bytes changes nothing. *)
Definition Write (fs : t) (f : File) (buf : list Byte.byte) : result Z * t :=
  match files fs !! f_name f with
  | None => (Err (PathError "write" (f_name f) (Sentinel ErrClosed)), fs)
  | Some i =>
      if negb (is_regular i) then
        (Err (PathError "write" (f_name f) (Errno syscall.EINVAL)), fs)
      else if (len buf =? 0) then (Ok 0, fs)
      else
        let i' := {| i_mode := i_mode i; i_mtime := clock fs;
                     i_data := write_at (i_data i) (Z.to_nat (f_off f)) buf |} in
        (Ok (len buf),
         {| files := <[f_name f := i']> (files fs); clock := clock fs |})
  end.

(** os.Mkdir(name, perm) *)
Definition Mkdir (fs : t) (name : string) (perm : Z) : option error * t :=
  let fail e := (Some (PathError "mkdir" name (Errno e)), fs) in
  match files fs !! name with
  | Some _ => fail syscall.EEXIST
  | None =>
      if has_parent_dir fs name then
        let i := {| i_mode := Z.lor os.ModeDir (os.Perm perm);
                    i_mtime := clock fs; i_data := [] |} in
        (None, {| files := <[name := i]> (files fs); clock := clock fs |})
      else fail syscall.ENOENT
  end.

(** os.Chmod(name, mode): the permission bits are replaced. *)
Definition Chmod (fs : t) (name : string) (mode : Z) : option error * t :=
  match files fs !! name with
  | None => (Some (PathError "chmod" name (Errno syscall.ENOENT)), fs)
  | Some i =>
      let m := Z.lor (Z.land (i_mode i) (Z.lnot os.ModePerm)) (os.Perm mode) in
      let i' := {| i_mode := m; i_mtime := i_mtime i; i_data := i_data i |} in
      (None, {| files := <[name := i']> (files fs); clock := clock fs |})
  end.

(** os.Truncate(name, size): the file is cut or extended with zero bytes
    to exactly [size] bytes. *)
Definition Truncate (fs : t) (name : string) (size : Z) : option error * t :=
  let fail e := (Some (PathError "truncate" name (Errno e)), fs) in
  match files fs !! name with
  | None => fail syscall.ENOENT
  | Some i =>
      if is_dir i then fail syscall.EISDIR
      else if negb (is_regular i) then fail syscall.EINVAL
      else if negb (can_write i) then fail syscall.EACCES
      else if size <? 0 then fail syscall.EINVAL
      else
        let n := Z.to_nat size in
        let d := firstn n (i_data i) ++ repeat Byte.x00 (n - List.length (i_data i)) in
        let i' := {| i_mode := i_mode i; i_mtime := clock fs; i_data := d |} in
        (None, {| files := <[name := i']> (files fs); clock := clock fs |})
  end.

(** Removing and renaming change the directory that holds the name, which
    its owner must be allowed to write.  (A path whose directory is not in
    the store has no directory to refuse the change.)  Modification times
    of directories are not kept up. *)
Definition parent_writable (fs : t) (name : string) : bool :=
  match files fs !! parent name with
  | Some d => can_write d
  | None => true
  end.

(** [k] names an entry of the directory [dir]. *)
Definition is_child (dir k : string) : bool :=
  negb (String.eqb k dir) && String.eqb (parent k) dir.

Definition has_children (fs : t) (dir : string) : bool :=
  existsb (fun kv => is_child dir (fst kv)) (map_to_list (files fs)).

(** unlink(2) and rmdir(2): the errno, or the store without the entry. *)
Definition unlink (fs : t) (name : string) : option Z * t :=
  match files fs !! name with
  | None => (Some syscall.ENOENT, fs)
  | Some i =>
      if negb (parent_writable fs name) then (Some syscall.EACCES, fs)
      else if is_dir i then (Some syscall.EISDIR, fs)
      else (None, {| files := delete name (files fs); clock := clock fs |})
  end.

Definition rmdir (fs : t) (name : string) : option Z * t :=
  match files fs !! name with
  | None => (Some syscall.ENOENT, fs)
  | Some i =>
      if String.eqb name "/" then (Some syscall.EBUSY, fs)
      else if negb (parent_writable fs name) then (Some syscall.EACCES, fs)
      else if negb (is_dir i) then (Some syscall.ENOTDIR, fs)
      else if has_children fs name then (Some syscall.ENOTEMPTY, fs)
      else (None, {| files := delete name (files fs); clock := clock fs |})
  end.

(** os.Remove(name) tries both calls, unlink first.  When both fail, the
    error of rmdir is reported unless it is ENOTDIR. *)
Definition Remove (fs : t) (name : string) : option error * t :=
  match unlink fs name with
  | (None, fs') => (None, fs')
  | (Some e, _) =>
      match rmdir fs name with
      | (None, fs') => (None, fs')
      | (Some e1, _) =>
          let e := if negb (e1 =? syscall.ENOTDIR) then e1 else e in
          (Some (PathError "remove" name (Errno e)), fs)
      end
  end.

(** An fs.DirEntry: the name of the entry and the path it stands for. *)
Record DirEntry : Set := mkDirEntry { de_Name : string; de_path : string }.

(** DirEntry.Info() *)
Definition DirEntry_Info (fs : t) (e : DirEntry) : result FileInfo :=
  Lstat fs (de_path e).

Fixpoint insert_by_name (x : DirEntry) (l : list DirEntry) : list DirEntry :=
  match l with
  | [] => [x]
  | y :: rest =>
      if String.leb (de_Name x) (de_Name y) then x :: l
      else y :: insert_by_name x rest
  end.

Definition sort_by_name (l : list DirEntry) : list DirEntry :=
  fold_right insert_by_name [] l.

(** os.ReadDir(name): the entries of the directory, sorted by name. *)
Definition ReadDir (fs : t) (name : string) : result (list DirEntry) :=
  let fail e := Err (PathError "open" name (Errno e)) in
  match files fs !! name with
  | None => fail syscall.ENOENT
  | Some d =>
      if negb (is_dir d) then fail syscall.ENOTDIR
      else if negb (can_read d) then fail syscall.EACCES
      else
        Ok (sort_by_name
              (List.map (fun kv => mkDirEntry (basename (fst kv)) (fst kv))
                 (List.filter (fun kv => is_child name (fst kv))
                    (map_to_list (files fs)))))
  end.

(** os.SameFile: the store has no hard links, so two names stand for the
    same file only if they are the same name. *)
Definition SameFile (name1 name2 : string) : bool := String.eqb name1 name2.

Section Rename.
(** rename(2), whatever it does: the errno, or the store after the move. *)
Variable sys_rename : t -> string -> string -> option Z * t.

(** os.Rename(oldname, newname): a new name that is a directory is
    refused before the system call is made. *)
Definition Rename (fs : t) (oldname newname : string) : option error * t :=
  let fail e := (Some (LinkError "rename" oldname newname e), fs) in
  let refused :=
    match Lstat fs newname with
    | Ok fi =>
        if fi_IsDir fi then
          match Lstat fs oldname with
          | Err (PathError _ _ err) => Some err
          | Err err => Some err
          | Ok ofi =>
              if String.eqb newname oldname || negb (SameFile newname oldname)
              then Some (Errno syscall.EEXIST) else None
          end
        else None
    | Err _ => None
    end in
  match refused with
  | Some e => fail e
  | None =>
      match sys_rename fs oldname newname with
      | (Some e, _) => fail (Errno e)
      | (None, fs') => (None, fs')
      end
  end.
End Rename.
End hostfs.

(* --------------------------------------------------------------------- *)
(*  package host: FileServer                                               *)
(* --------------------------------------------------------------------- *)

Module FileServer.

Definition maxReadSize : Z := Z.shiftl 1 20. (* 1MB *)

(** resolve turns a workspace-relative path into an absolute path,
    rejecting any traversal outside the root. *)
Definition resolve (root rel : string) : result string :=
  let cleaned := filepath.Clean ("/" +:+ rel) in
  let abs := filepath.Join [root; cleaned] in
  if negb (String.eqb abs root)
     && negb (strings.HasPrefix abs (root +:+ String filepath.Separator ""))
  then Err (status.Error InvalidArgument "path escapes workspace root")
  else Ok abs.

(** goModeToUnix converts Go's os.FileMode to Unix mode bits. *)
Definition goModeToUnix (m : Z) : Z :=
  let mode := wrap_u32 (os.Perm m) in
  let mode :=
    if negb (Z.land m os.ModeSetuid =? 0) then Z.lor mode (oct "4000") else mode in
  let mode :=
    if negb (Z.land m os.ModeSetgid =? 0) then Z.lor mode (oct "2000") else mode in
  let mode :=
    if negb (Z.land m os.ModeSticky =? 0) then Z.lor mode (oct "1000") else mode in
  if os.IsDir m then Z.lor mode (oct "040000")                    (* S_IFDIR *)
  else if negb (Z.land m os.ModeSymlink =? 0)
    then Z.lor mode (oct "120000")                                (* S_IFLNK *)
  else if negb (Z.land m os.ModeNamedPipe =? 0)
    then Z.lor mode (oct "010000")                                (* S_IFIFO *)
  else if negb (Z.land m os.ModeSocket =? 0)
    then Z.lor mode (oct "140000")                                (* S_IFSOCK *)
  else if negb (Z.land m os.ModeDevice =? 0)
          && negb (Z.land m os.ModeCharDevice =? 0)
    then Z.lor mode (oct "020000")                                (* S_IFCHR *)
  else if negb (Z.land m os.ModeDevice =? 0)
    then Z.lor mode (oct "060000")                                (* S_IFBLK *)
  else Z.lor mode (oct "100000").                                 (* S_IFREG *)

Definition fileInfoToProto (info : FileInfo) : pb.FileInfo :=
  {| pb.Name := fi_Name info;
     pb.Size := fi_Size info;
     pb.Mode := goModeToUnix (fi_Mode info);
     pb.ModTimeUnix := Unix (fi_ModTime info);
     pb.IsDir := fi_IsDir info |}.

Definition osErrToStatus (err : error) : error :=
  if os.IsNotExist err then status.Errorf NotFound "" err
  else if os.IsPermission err then status.Errorf PermissionDenied "" err
  else if os.IsExist err then status.Errorf AlreadyExists "" err
  else status.Errorf Internal "" err.

(** The handlers take the server's root, the request and the host file
    system, and return the response or error with the file system after
    the call. *)

Definition Stat (root : string) (req : pb.StatRequest) (fs : hostfs.t)
    : result pb.StatResponse :=
  match resolve root (pb.stat_Path req) with
  | Err err => Err err
  | Ok abs =>
      match hostfs.Lstat fs abs with
      | Err err => Err (osErrToStatus err)
      | Ok info => Ok {| pb.Info := fileInfoToProto info |}
      end
  end.

(** The length of the read buffer:
      length := req.Length
      if length <= 0 || length > maxReadSize { length = maxReadSize } *)
Definition readLength (req : pb.ReadFileRequest) : Z :=
  let length := pb.rd_Length req in
  if (length <=? 0) || (length >? maxReadSize) then maxReadSize else length.

Definition ReadFile (root : string) (req : pb.ReadFileRequest) (fs : hostfs.t)
    : result pb.ReadFileResponse :=
  match resolve root (pb.rd_Path req) with
  | Err err => Err err
  | Ok abs =>
      match hostfs.Open fs abs with
      | Err err => Err (osErrToStatus err)
      | Ok f =>
          let length := readLength req in
          let seeked :=
            if pb.rd_Offset req >? 0 then hostfs.Seek f (pb.rd_Offset req)
            else Ok f in
          match seeked with
          | Err err => Err (status.Errorf Internal "seek: " err)
          | Ok f =>
              let '(data, err) := hostfs.Read fs f length in
              match err with
              | Some EOF => Ok {| pb.Data := data |}
              | Some e =>
                  if (len data =? 0) then Err (osErrToStatus e)
                  else Ok {| pb.Data := data |}
              | None => Ok {| pb.Data := data |}
              end
          end
      end
  end.

(** The open flags of WriteFile:
      flags := os.O_WRONLY
      if req.Truncate { flags |= os.O_TRUNC } *)
Definition writeFlags (req : pb.WriteFileRequest) : Z :=
  let flags := os.O_WRONLY in
  if pb.wr_Truncate req then Z.lor flags os.O_TRUNC else flags.

Definition WriteFile (root : string) (req : pb.WriteFileRequest) (fs : hostfs.t)
    : result unit * hostfs.t :=
  match resolve root (pb.wr_Path req) with
  | Err err => (Err err, fs)
  | Ok abs =>
      match hostfs.OpenFile fs abs (writeFlags req) 0 with
      | (Err err, fs) => (Err (osErrToStatus err), fs)
      | (Ok f, fs) =>
          let seeked :=
            if pb.wr_Offset req >? 0 then hostfs.Seek f (pb.wr_Offset req)
            else Ok f in
          match seeked with
          | Err err => (Err (status.Errorf Internal "seek: " err), fs)
          | Ok f =>
              match hostfs.Write fs f (pb.wr_Data req) with
              | (Err err, fs) => (Err (status.Errorf Internal "write: " err), fs)
              | (Ok _, fs) => (Ok tt, fs)
              end
          end
      end
  end.

Definition Create (root : string) (req : pb.CreateRequest) (fs : hostfs.t)
    : result unit * hostfs.t :=
  match resolve root (pb.cr_Path req) with
  | Err err => (Err err, fs)
  | Ok abs =>
      let mode := pb.cr_Mode req in
      let mode := if mode =? 0 then oct "0644" else mode in
      match hostfs.OpenFile fs abs
              (Z.lor os.O_CREATE (Z.lor os.O_EXCL os.O_WRONLY)) mode with
      | (Err err, fs) => (Err (osErrToStatus err), fs)
      | (Ok _, fs) => (Ok tt, fs)
      end
  end.

Definition Mkdir (root : string) (req : pb.MkdirRequest) (fs : hostfs.t)
    : result unit * hostfs.t :=
  match resolve root (pb.mk_Path req) with
  | Err err => (Err err, fs)
  | Ok abs =>
      let mode := pb.mk_Mode req in
      let mode := if mode =? 0 then oct "0755" else mode in
      match hostfs.Mkdir fs abs mode with
      | (Some err, fs) => (Err (osErrToStatus err), fs)
      | (None, fs) => (Ok tt, fs)
      end
  end.

Definition Chmod (root : string) (req : pb.ChmodRequest) (fs : hostfs.t)
    : result unit * hostfs.t :=
  match resolve root (pb.ch_Path req) with
  | Err err => (Err err, fs)
  | Ok abs =>
      match hostfs.Chmod fs abs (pb.ch_Mode req) with
      | (Some err, fs) => (Err (osErrToStatus err), fs)
      | (None, fs) => (Ok tt, fs)
      end
  end.

Definition Truncate (root : string) (req : pb.TruncateRequest) (fs : hostfs.t)
    : result unit * hostfs.t :=
  match resolve root (pb.tr_Path req) with
  | Err err => (Err err, fs)
  | Ok abs =>
      match hostfs.Truncate fs abs (pb.tr_Size req) with
      | (Some err, fs) => (Err (osErrToStatus err), fs)
      | (None, fs) => (Ok tt, fs)
      end
  end.


Definition ReadDir (root : string) (req : pb.ReadDirRequest) (fs : hostfs.t)
    : result pb.ReadDirResponse :=
  match resolve root (pb.ls_Path req) with
  | Err err => Err err
  | Ok abs =>
      match hostfs.ReadDir fs abs with
      | Err err => Err (osErrToStatus err)
      | Ok entries =>
          let infos :=
            fold_left
              (fun infos entry =>
                 match hostfs.DirEntry_Info fs entry with
                 | Err _ => infos                                (* continue *)
                 | Ok info => infos ++ [fileInfoToProto info]
                 end)
              entries [] in
          Ok {| pb.Entries := infos |}
      end
  end.

Definition Remove (root : string) (req : pb.RemoveRequest) (fs : hostfs.t)
    : result unit * hostfs.t :=
  match resolve root (pb.rm_Path req) with
  | Err err => (Err err, fs)
  | Ok abs =>
      match hostfs.Remove fs abs with
      | (Some err, fs) => (Err (osErrToStatus err), fs)
      | (None, fs) => (Ok tt, fs)
      end
  end.

Definition Rename (sys_rename : hostfs.t -> string -> string -> option Z * hostfs.t)
    (root : string) (req : pb.RenameRequest) (fs : hostfs.t)
    : result unit * hostfs.t :=
  match resolve root (pb.mv_OldPath req) with
  | Err err => (Err err, fs)
  | Ok oldAbs =>
      match resolve root (pb.mv_NewPath req) with
      | Err err => (Err err, fs)
      | Ok newAbs =>
          match hostfs.Rename sys_rename fs oldAbs newAbs with
          | (Some err, fs) => (Err (osErrToStatus err), fs)
          | (None, fs) => (Ok tt, fs)
          end
      end
  end.
End FileServer.

(* --------------------------------------------------------------------- *)
(*  package fuse (cgofuse): the types and constants the proxy uses         *)
(* --------------------------------------------------------------------- *)

Module fuse.
Definition ENOENT : Z := 2.
Definition EIO : Z := 5.
Definition EACCES : Z := 13.
Definition EEXIST : Z := 17.
Definition EINVAL : Z := 22.

Record Timespec : Set := mkTimespec { Sec : Z; Nsec : Z }.

Record Stat_t : Set := mkStat {
  Mode : Z;           (* uint32 *)
  Nlink : Z;          (* uint32 *)
  Uid : Z;            (* uint32 *)
  Gid : Z;            (* uint32 *)
  Size : Z;           (* int64 *)
  Atim : Timespec;
  Mtim : Timespec;
  Ctim : Timespec;
  Blksize : Z;        (* int64 *)
  Blocks : Z;         (* int64 *)
  Birthtim : Timespec
}.

(** The zero value [fuse.Stat_t{}]. *)
Definition Stat_zero : Stat_t :=
  mkStat 0 0 0 0 0 (mkTimespec 0 0) (mkTimespec 0 0) (mkTimespec 0 0) 0 0
         (mkTimespec 0 0).

(** fuse.Statfs_t; its fields live in a module of their own because
    [Blocks] is also a field of Stat_t. *)
Module Statfs.
Record Statfs_t : Set := mkStatfs {
  Bsize : Z; Frsize : Z; Blocks : Z; Bfree : Z; Bavail : Z;
  Files : Z; Ffree : Z; Favail : Z; Fsid : Z; Flag : Z; Namemax : Z
}.
End Statfs.
End fuse.

(* --------------------------------------------------------------------- *)
(*  package client: RemoteFS                                               *)
(* --------------------------------------------------------------------- *)

(** pb.FileServiceClient: the RPC stubs the proxy calls.  [S] is the state
    of whatever answers the calls. *)
Record FileServiceClient (S : Type) : Type := mkClient {
  rpc_Stat : pb.StatRequest -> S -> result pb.StatResponse * S;
  rpc_ReadFile : pb.ReadFileRequest -> S -> result pb.ReadFileResponse * S;
  rpc_WriteFile : pb.WriteFileRequest -> S -> result unit * S;
  rpc_Create : pb.CreateRequest -> S -> result unit * S;
  rpc_Mkdir : pb.MkdirRequest -> S -> result unit * S;
  rpc_Chmod : pb.ChmodRequest -> S -> result unit * S;
  rpc_Truncate : pb.TruncateRequest -> S -> result unit * S
}.
Arguments rpc_Stat {S}.
Arguments rpc_ReadFile {S}.
Arguments rpc_WriteFile {S}.
Arguments rpc_Create {S}.
Arguments rpc_Mkdir {S}.
Arguments rpc_Chmod {S}.
Arguments rpc_Truncate {S}.

(** A connection that delivers every call to a FileServer rooted at [root]
    and returns its answer. *)
Definition connected (root : string) : FileServiceClient hostfs.t :=
  {| rpc_Stat := fun req fs => (FileServer.Stat root req fs, fs);
     rpc_ReadFile := fun req fs => (FileServer.ReadFile root req fs, fs);
     rpc_WriteFile := FileServer.WriteFile root;
     rpc_Create := FileServer.Create root;
     rpc_Mkdir := FileServer.Mkdir root;
     rpc_Chmod := FileServer.Chmod root;
     rpc_Truncate := FileServer.Truncate root |}.

(** A connection on which every call fails with the transport error [e]
    before reaching the server. *)
Definition disconnected (e : error) : FileServiceClient hostfs.t :=
  {| rpc_Stat := fun _ fs => (Err e, fs);
     rpc_ReadFile := fun _ fs => (Err e, fs);
     rpc_WriteFile := fun _ fs => (Err e, fs);
     rpc_Create := fun _ fs => (Err e, fs);
     rpc_Mkdir := fun _ fs => (Err e, fs);
     rpc_Chmod := fun _ fs => (Err e, fs);
     rpc_Truncate := fun _ fs => (Err e, fs) |}.

(** The stubs of pb.FileServiceClient for the calls on names: listing,
    removing and renaming. *)
Record FileServiceNames (S : Type) : Type := mkNames {
  rpc_ReadDir : pb.ReadDirRequest -> S -> result pb.ReadDirResponse * S;
  rpc_Remove : pb.RemoveRequest -> S -> result unit * S;
  rpc_Rename : pb.RenameRequest -> S -> result unit * S
}.
Arguments rpc_ReadDir {S}.
Arguments rpc_Remove {S}.
Arguments rpc_Rename {S}.

(** These calls delivered to a FileServer rooted at [root] on a host
    whose rename(2) is [sys_rename]. *)
Definition connected_names
    (sys_rename : hostfs.t -> string -> string -> option Z * hostfs.t)
    (root : string) : FileServiceNames hostfs.t :=
  {| rpc_ReadDir := fun req fs => (FileServer.ReadDir root req fs, fs);
     rpc_Remove := FileServer.Remove root;
     rpc_Rename := FileServer.Rename sys_rename root |}.

Module RemoteFS.

(** File handle tracking: nextFH and handles (fh -> path). *)
Record t : Type := mkRemoteFS {
  nextFH : Z;                   (* uint64 *)
  handles : gmap Z string
}.

Definition NewRemoteFS : t := {| nextFH := 1; handles := ∅ |}.

(** ^uint64(0) *)
Definition invalidFH : Z := 2 ^ 64 - 1.

Definition allocFH (fs : t) (path : string) : Z * t :=
  let fh := nextFH fs in
  (fh, {| nextFH := (nextFH fs + 1) mod 2 ^ 64;
          handles := <[fh := path]> (handles fs) |}).

Definition freeFH (fs : t) (fh : Z) : t :=
  {| nextFH := nextFH fs; handles := delete fh (handles fs) |}.

Definition pathForFH (fs : t) (fh : Z) : string :=
  default "" (handles fs !! fh).

(** fillStat populates a fuse.Stat_t from a protobuf FileInfo.  [uid] and
    [gid] are os.Getuid() and os.Getgid(). *)
Definition fillStat (uid gid : Z) (stat : fuse.Stat_t) (info : pb.FileInfo)
    : fuse.Stat_t :=
  let mtim := fuse.mkTimespec (pb.ModTimeUnix info) 0 in
  {| fuse.Mode := pb.Mode info;
     fuse.Size := pb.Size info;
     fuse.Mtim := mtim;
     fuse.Atim := mtim;
     fuse.Ctim := mtim;
     fuse.Birthtim := mtim;
     fuse.Nlink := if pb.IsDir info then 2 else 1;
     fuse.Uid := wrap_u32 uid;
     fuse.Gid := wrap_u32 gid;
     fuse.Blksize := 4096;
     fuse.Blocks :=
       if pb.Size info >? 0 then Z.quot (wrap64 (pb.Size info + 511)) 512
       else fuse.Blocks stat |}.

Definition errToFuse (err : option error) : Z :=
  match err with
  | None => 0
  | Some e =>
      match status.FromError e with
      | (_, false) => - fuse.EIO
      | (c, true) =>
          match c with
          | NotFound => - fuse.ENOENT
          | PermissionDenied => - fuse.EACCES
          | AlreadyExists => - fuse.EEXIST
          | InvalidArgument => - fuse.EINVAL
          | DeadlineExceeded | Unavailable => - fuse.EIO
          | _ => - fuse.EIO
          end
      end
  end.

Section Ops.
Context {S : Type} (client : FileServiceClient S).
Variables (uid gid : Z).

Definition Getattr (path : string) (stat : fuse.Stat_t) (fh : Z) (s : S)
    : Z * fuse.Stat_t * S :=
  match rpc_Stat client {| pb.stat_Path := path |} s with
  | (Err err, s) => (errToFuse (Some err), stat, s)
  | (Ok resp, s) => (0, fillStat uid gid stat (pb.Info resp), s)
  end.

Definition Open (fs : t) (path : string) (flags : Z) (s : S)
    : Z * Z * t * S :=
  match rpc_Stat client {| pb.stat_Path := path |} s with
  | (Err err, s) => (errToFuse (Some err), invalidFH, fs, s)
  | (Ok _, s) => let '(fh, fs) := allocFH fs path in (0, fh, fs, s)
  end.

Definition Release (fs : t) (path : string) (fh : Z) : Z * t :=
  (0, freeFH fs fh).

(** copy(buff, data): the number of bytes copied and the buffer after. *)
Definition copy (buff data : list Byte.byte) : Z * list Byte.byte :=
  let n := Nat.min (List.length buff) (List.length data) in
  (Z.of_nat n, firstn n data ++ skipn n buff).

Definition Read (path : string) (buff : list Byte.byte) (ofst : Z) (fh : Z)
    (s : S) : Z * list Byte.byte * S :=
  match rpc_ReadFile client
          {| pb.rd_Path := path; pb.rd_Offset := ofst;
             pb.rd_Length := len buff |} s with
  | (Err err, s) => (errToFuse (Some err), buff, s)
  | (Ok resp, s) => let '(n, buff) := copy buff (pb.Data resp) in (n, buff, s)
  end.

(** The request built by Write; [Truncate] is left at its zero value. *)
Definition WriteRequest (path : string) (buff : list Byte.byte) (ofst : Z)
    : pb.WriteFileRequest :=
  {| pb.wr_Path := path; pb.wr_Data := buff; pb.wr_Offset := ofst;
     pb.wr_Truncate := false |}.

Definition Write (path : string) (buff : list Byte.byte) (ofst : Z) (fh : Z)
    (s : S) : Z * S :=
  match rpc_WriteFile client (WriteRequest path buff ofst) s with
  | (Err err, s) => (errToFuse (Some err), s)
  | (Ok _, s) => (len buff, s)
  end.

Definition Create (fs : t) (path : string) (flags : Z) (mode : Z) (s : S)
    : Z * Z * t * S :=
  match rpc_Create client {| pb.cr_Path := path; pb.cr_Mode := mode |} s with
  | (Err err, s) => (errToFuse (Some err), invalidFH, fs, s)
  | (Ok _, s) => let '(fh, fs) := allocFH fs path in (0, fh, fs, s)
  end.

Definition Mkdir (path : string) (mode : Z) (s : S) : Z * S :=
  match rpc_Mkdir client {| pb.mk_Path := path; pb.mk_Mode := mode |} s with
  | (Err err, s) => (errToFuse (Some err), s)
  | (Ok _, s) => (0, s)
  end.

Definition Truncate (path : string) (size : Z) (fh : Z) (s : S) : Z * S :=
  match rpc_Truncate client {| pb.tr_Path := path; pb.tr_Size := size |} s with
  | (Err err, s) => (errToFuse (Some err), s)
  | (Ok _, s) => (0, s)
  end.

Definition Chmod (path : string) (mode : Z) (s : S) : Z * S :=
  match rpc_Chmod client {| pb.ch_Path := path; pb.ch_Mode := mode |} s with
  | (Err err, s) => (errToFuse (Some err), s)
  | (Ok _, s) => (0, s)
  end.

Definition Opendir (fs : t) (path : string) (s : S) : Z * Z * t * S :=
  match rpc_Stat client {| pb.stat_Path := path |} s with
  | (Err err, s) => (errToFuse (Some err), invalidFH, fs, s)
  | (Ok _, s) => let '(fh, fs) := allocFH fs path in (0, fh, fs, s)
  end.

Definition Releasedir (fs : t) (path : string) (fh : Z) : Z * t :=
  (0, freeFH fs fh).
End Ops.

Section NameOps.
Context {S : Type} (client : FileServiceNames S).
Variables (uid gid : Z).

(** The loop of Readdir over the entries: [fill] is the callback of the
    FUSE library, which works on a state [F] of its own and answers false
    once its buffer is full. *)
Fixpoint fill_entries {F : Type}
    (fill : string -> option fuse.Stat_t -> Z -> F -> bool * F)
    (entries : list pb.FileInfo) (f : F) : F :=
  match entries with
  | [] => f
  | entry :: rest =>
      let st := fillStat uid gid fuse.Stat_zero entry in
      let '(more, f) := fill (pb.Name entry) (Some st) 0 f in
      if more then fill_entries fill rest f else f          (* break *)
  end.

Definition Readdir {F : Type} (path : string)
    (fill : string -> option fuse.Stat_t -> Z -> F -> bool * F)
    (ofst fh : Z) (f : F) (s : S) : Z * F * S :=
  match rpc_ReadDir client {| pb.ls_Path := path |} s with
  | (Err err, s) => (errToFuse (Some err), f, s)
  | (Ok resp, s) =>
      (* Always include . and .. *)
      let '(_, f) := fill "." None 0 f in
      let '(_, f) := fill ".." None 0 f in
      (0, fill_entries fill (pb.Entries resp) f, s)
  end.

Definition Unlink (path : string) (s : S) : Z * S :=
  match rpc_Remove client {| pb.rm_Path := path |} s with
  | (Err err, s) => (errToFuse (Some err), s)
  | (Ok _, s) => (0, s)
  end.

Definition Rmdir (path : string) (s : S) : Z * S :=
  match rpc_Remove client {| pb.rm_Path := path |} s with
  | (Err err, s) => (errToFuse (Some err), s)
  | (Ok _, s) => (0, s)
  end.

Definition Rename (oldpath newpath : string) (s : S) : Z * S :=
  match rpc_Rename client
          {| pb.mv_OldPath := oldpath; pb.mv_NewPath := newpath |} s with
  | (Err err, s) => (errToFuse (Some err), s)
  | (Ok _, s) => (0, s)
  end.
End NameOps.

(** Statfs returns reasonable defaults for a remote filesystem. *)
Definition Statfs (path : string) (stat : fuse.Statfs.Statfs_t)
    : Z * fuse.Statfs.Statfs_t :=
  (0,
   {| fuse.Statfs.Bsize := 4096;
      fuse.Statfs.Frsize := 4096;
      fuse.Statfs.Blocks := Z.shiftl 1 30; (* ~4TB *)
      fuse.Statfs.Bfree := Z.shiftl 1 29;
      fuse.Statfs.Bavail := Z.shiftl 1 29;
      fuse.Statfs.Files := Z.shiftl 1 20;
      fuse.Statfs.Ffree := Z.shiftl 1 19;
      fuse.Statfs.Favail := Z.shiftl 1 19;
      fuse.Statfs.Fsid := fuse.Statfs.Fsid stat;
      fuse.Statfs.Flag := fuse.Statfs.Flag stat;
      fuse.Statfs.Namemax := 255 |}).

End RemoteFS.

(* --------------------------------------------------------------------- *)
(*  package client: Client; package main: runClient                        *)
(* --------------------------------------------------------------------- *)

Module Client.

(** The loop of inferWorkspaceName, at index [i] with [n] bytes to go. *)
Fixpoint inferWorkspaceName_loop (addr : string) (i n : nat) : string :=
  match n with
  | O => addr
  | S n' =>
      match String.get i addr with
      | Some c =>
          if Ascii.eqb c ":"%char then String.substring 0 i addr
          else inferWorkspaceName_loop addr (S i) n'
      | None => addr
      end
  end.

(** inferWorkspaceName extracts a mount name from the host address. *)
Definition inferWorkspaceName (addr : string) : string :=
  inferWorkspaceName_loop addr 0 (String.length addr).

(** The mount path Start determines, ~/mob/<workspace-name>; [home] is
    os.Getenv("HOME"). *)
Definition mountPath (home addr : string) : string :=
  filepath.Join [home; "mob"; inferWorkspaceName addr].

End Client.

Module main.

(** The address runClient gives to client.New for the value of -connect. *)
Definition runClient_addr (connect : string) : string :=
  let addr := connect in
  if negb (strings.Contains addr ":") then addr +:+ ":7654" else addr.

End main.

(* --------------------------------------------------------------------- *)
(*  package host: Watcher                                                  *)
(* --------------------------------------------------------------------- *)

Module fsnotify.
(** fsnotify.Op: a bit set. *)
Definition Create : Z := Z.shiftl 1 0.
Definition Write : Z := Z.shiftl 1 1.
Definition Remove : Z := Z.shiftl 1 2.
Definition Rename : Z := Z.shiftl 1 3.
Definition Chmod : Z := Z.shiftl 1 4.

Record Event : Set := mkEvent { Name : string; Op : Z }.
End fsnotify.

(** Channels are objects of the heap: the watcher's state lists every
    channel made by Subscribe, and a channel value is its index there.  A
    channel holds the events waiting in its buffer, oldest first.  Sending
    on a closed channel and closing a closed channel panic; the panic ends
    the program, so a call either returns the state after it or panics.
    The log lines of the watcher are not modelled. *)
Module Watcher.

Inductive run (A : Type) : Type :=
| Returns (v : A)
| Panics (msg : string).
Arguments Returns {A} v.
Arguments Panics {A} msg.

Record chan : Set := mkChan {
  cap : nat;
  buf : list pb.FileChangeEvent;
  closed : bool
}.

Record t : Type := mkWatcher {
  root : string;
  chans : list chan;
  subscribers : gset nat;
  added : list string      (* the paths fsnotify watches, in the order added *)
}.

(** make(chan *pb.FileChangeEvent, n) *)
Definition make_chan (n : nat) (w : t) : nat * t :=
  (List.length (chans w),
   {| root := root w;
      chans := chans w ++ [{| cap := n; buf := []; closed := false |}];
      subscribers := subscribers w; added := added w |}).

Definition set_chan (ch : nat) (c : chan) (w : t) : t :=
  {| root := root w; chans := <[ch := c]> (chans w);
     subscribers := subscribers w; added := added w |}.

(** close(ch) *)
Definition close (ch : nat) (w : t) : run t :=
  match chans w !! ch with
  | None => Panics "close of nil channel"
  | Some c =>
      if closed c then Panics "close of closed channel"
      else Returns (set_chan ch {| cap := cap c; buf := buf c; closed := true |} w)
  end.

(** select { case ch <- event: default: }: the event is put in the buffer
    if there is room for it and dropped otherwise. *)
Definition send_or_drop (ch : nat) (event : pb.FileChangeEvent) (w : t) : run t :=
  match chans w !! ch with
  | None => Returns w
  | Some c =>
      if closed c then Panics "send on closed channel"
      else if (List.length (buf c) <? cap c)%nat
      then Returns (set_chan ch {| cap := cap c; buf := buf c ++ [event];
                                   closed := false |} w)
      else Returns w
  end.

Definition and_then {A B : Type} (r : run A) (k : A -> run B) : run B :=
  match r with
  | Returns v => k v
  | Panics msg => Panics msg
  end.

Definition broadcast (event : pb.FileChangeEvent) (w : t) : run t :=
  fold_left (fun r ch => and_then r (send_or_drop ch event))
    (elements (subscribers w)) (Returns w).

(** Subscribe returns a channel that receives change events. *)
Definition Subscribe (w : t) : nat * t :=
  let '(ch, w) := make_chan 64 w in
  (ch, {| root := root w; chans := chans w;
          subscribers := {[ch]} ∪ subscribers w; added := added w |}).

Definition Unsubscribe (ch : nat) (w : t) : run t :=
  close ch {| root := root w; chans := chans w;
              subscribers := subscribers w ∖ {[ch]}; added := added w |}.

(** Close closes all subscriber channels so blocked readers unblock. *)
Definition Close (w : t) : run t :=
  fold_left
    (fun r ch =>
       and_then r (fun w =>
         close ch {| root := root w; chans := chans w;
                     subscribers := subscribers w ∖ {[ch]}; added := added w |}))
    (elements (subscribers w)) (Returns w).

Section Host.
(** What the watcher takes from outside: filepath.Rel, and the outcome of
    fsnotify's NewWatcher and of its Add on a path. *)
Variable Rel : string -> string -> result string.
Variable fsnotify_NewWatcher : option error.
Variable fsnotify_Add : string -> option error.

Definition watch (path : string) (w : t) : t :=
  match fsnotify_Add path with
  | Some _ => w
  | None => {| root := root w; chans := chans w;
               subscribers := subscribers w; added := added w ++ [path] |}
  end.

Definition handleEvent (event : fsnotify.Event) (w : t) : run t :=
  match Rel (root w) (fsnotify.Name event) with
  | Err _ => Returns w
  | Ok rel =>
      let rel := "/" +:+ rel in
      let op := fsnotify.Op event in
      let classified :=
        if negb (Z.land op fsnotify.Create =? 0) then
          (* If a new non-hidden directory was created, watch it too *)
          let name := filepath.Base (fsnotify.Name event) in
          Some (pb.ChangeType_CHANGE_TYPE_CREATED,
                if negb (strings.HasPrefix name ".")
                then watch (fsnotify.Name event) w else w)
        else if negb (Z.land op fsnotify.Write =? 0) then
          Some (pb.ChangeType_CHANGE_TYPE_MODIFIED, w)
        else if negb (Z.land op fsnotify.Remove =? 0) then
          Some (pb.ChangeType_CHANGE_TYPE_DELETED, w)
        else if negb (Z.land op fsnotify.Rename =? 0) then
          Some (pb.ChangeType_CHANGE_TYPE_RENAMED, w)
        else None in
      match classified with
      | None => Returns w
      | Some (changeType, w) =>
          broadcast {| pb.chg_Path := rel; pb.chg_Type := changeType |} w
      end
  end.

(** Run, on the events the fsnotify watcher delivers before it is closed. *)
Definition Run (events : list fsnotify.Event) (w : t) : run t :=
  fold_left (fun r event => and_then r (handleEvent event)) events (Returns w).

(** The errors a walk passes up: filepath.SkipDir, or an error of the
    walk function. *)
Inductive walk_error : Set :=
| SkipDir
| Stop (err : error).

(** The function addRecursive gives to filepath.Walk, on the list of the
    paths watched so far. *)
Definition addRecursive_fn (path : string) (info : option FileInfo)
    (err : option error) (watched : list string)
    : option walk_error * list string :=
  match err, info with
  | Some _, _ => (None, watched)            (* skip inaccessible paths *)
  | None, None => (None, watched)
  | None, Some info =>
      if fi_IsDir info then
        (* Skip hidden directories and .git *)
        let name := fi_Name info in
        if negb (String.eqb name ".") && strings.HasPrefix name "."
        then (Some SkipDir, watched)
        else
          match fsnotify_Add path with
          | Some e => (Some (Stop e), watched)
          | None => (None, watched ++ [path])
          end
      else (None, watched)
  end.

(** filepath.walk: the directory is read before the walk function is
    called on it; [fuel] bounds the depth of the walk, and the result is
    None when it does not suffice. *)
Fixpoint walk (fuel : nat) (fs : hostfs.t) (path : string) (info : FileInfo)
    (watched : list string) : option (option walk_error * list string) :=
  match fuel with
  | O => None
  | S fuel' =>
      if negb (fi_IsDir info) then
        Some (addRecursive_fn path (Some info) None watched)
      else
        let names := hostfs.ReadDir fs path in
        let err := match names with Err e => Some e | Ok _ => None end in
        let '(err1, watched) := addRecursive_fn path (Some info) err watched in
        match names, err1 with
        | Ok names, None =>
            (fix each (names : list hostfs.DirEntry) (watched : list string)
               : option (option walk_error * list string) :=
               match names with
               | [] => Some (None, watched)
               | n :: rest =>
                   let filename := filepath.Join [path; hostfs.de_Name n] in
                   match hostfs.Lstat fs filename with
                   | Err e =>
                       match addRecursive_fn filename None (Some e) watched with
                       | (Some (Stop e'), watched) => Some (Some (Stop e'), watched)
                       | (_, watched) => each rest watched
                       end
                   | Ok fileInfo =>
                       match walk fuel' fs filename fileInfo watched with
                       | None => None
                       | Some (None, watched) => each rest watched
                       | Some (Some SkipDir, watched) =>
                           if fi_IsDir fileInfo then each rest watched
                           else Some (Some SkipDir, watched)
                       | Some (Some (Stop e), watched) =>
                           Some (Some (Stop e), watched)
                       end
                   end
               end) names watched
        | _, _ => Some (err1, watched)
        end
  end.

(** filepath.Walk(root, fn) *)
Definition Walk (fuel : nat) (fs : hostfs.t) (root : string)
    : option (option error * list string) :=
  let r :=
    match hostfs.Lstat fs root with
    | Err e => Some (addRecursive_fn root None (Some e) [])
    | Ok info => walk fuel fs root info []
    end in
  match r with
  | None => None
  | Some (Some (Stop e), watched) => Some (Some e, watched)
  | Some (_, watched) => Some (None, watched)
  end.

Definition addRecursive (fuel : nat) (fs : hostfs.t) (dir : string)
    : option (option error * list string) :=
  Walk fuel fs dir.

Definition NewWatcher (fuel : nat) (fs : hostfs.t) (root : string)
    : option (result t) :=
  match fsnotify_NewWatcher with
  | Some err => Some (Err err)
  | None =>
      match addRecursive fuel fs root with
      | None => None
      | Some (Some err, _) => Some (Err err)
      | Some (None, watched) =>
          Some (Ok {| root := root; chans := []; subscribers := ∅;
                      added := watched |})
      end
  end.
End Host.

End Watcher.

(* --------------------------------------------------------------------- *)
(*  package gitops: Debouncer                                              *)
(* --------------------------------------------------------------------- *)

(** Time is a number of ticks (say milliseconds) on the runtime's clock.
    The Go runtime keeps every timer made by time.AfterFunc: a timer is
    pending until it either expires, which runs its function, or is
    stopped.  A *time.Timer is the index of the timer in the runtime's
    list.  Calls on a debouncer are taken one at a time, each at an
    instant [now]; before a call is served the runtime has run every timer
    that was due by then, earliest deadline first. *)
Module Debouncer.

Inductive timer_state : Set := Pending | Stopped | Fired.

Record Timer : Set := mkTimer { deadline : Z; state : timer_state }.

(** The runtime: its timers, and the record of the debounced action:
    [calls] lists the instants at which fn() ran, oldest first. *)
Record runtime : Set := mkRuntime {
  timers : list Timer;
  calls : list Z
}.

Definition boot : runtime := {| timers := []; calls := [] |}.

(** The Debouncer struct: delay and timer (nil or a timer). *)
Record t : Set := mkDebouncer {
  delay : Z;
  timer : option nat
}.

Definition NewDebouncer (delay : Z) : t :=
  {| delay := delay; timer := None |}.

(** time.AfterFunc(d, d.fire) at instant [now]; a non-positive duration
    is due at once. *)
Definition AfterFunc (now d : Z) (rt : runtime) : nat * runtime :=
  (List.length (timers rt),
   {| timers := timers rt ++ [{| deadline := now + Z.max 0 d; state := Pending |}];
      calls := calls rt |}).

Definition stop_timer (tm : Timer) : Timer :=
  match state tm with
  | Pending => {| deadline := deadline tm; state := Stopped |}
  | _ => tm
  end.

(** Timer.Stop: a pending timer will not fire any more. *)
Definition Timer_Stop (id : nat) (rt : runtime) : runtime :=
  {| timers := alter stop_timer id (timers rt); calls := calls rt |}.

(** fire: runs fn() (under the [running] mutex) at instant [at_]. *)
Definition fire (at_ : Z) (rt : runtime) : runtime :=
  {| timers := timers rt; calls := calls rt ++ [at_] |}.

Definition is_due (now : Z) (tm : Timer) : bool :=
  match state tm with
  | Pending => deadline tm <=? now
  | _ => false
  end.

Definition expire (now : Z) (tm : Timer) : Timer :=
  if is_due now tm then {| deadline := deadline tm; state := Fired |} else tm.

Fixpoint insert_sorted (x : Z) (l : list Z) : list Z :=
  match l with
  | [] => [x]
  | y :: rest => if x <=? y then x :: l else y :: insert_sorted x rest
  end.

Definition sort (l : list Z) : list Z := fold_right insert_sorted [] l.

(** The runtime up to instant [now]: every pending timer whose deadline
    has come runs d.fire at its deadline. *)
Definition elapse (now : Z) (rt : runtime) : runtime :=
  let due := List.filter (is_due now) (timers rt) in
  fold_left (fun rt at_ => fire at_ rt) (sort (List.map deadline due))
    {| timers := List.map (expire now) (timers rt); calls := calls rt |}.

Definition Trigger (now : Z) (st : t * runtime) : t * runtime :=
  let '(d, rt) := st in
  let rt := elapse now rt in
  let rt :=
    match timer d with
    | Some tm => Timer_Stop tm rt
    | None => rt
    end in
  let '(tm, rt) := AfterFunc now (delay d) rt in
  ({| delay := delay d; timer := Some tm |}, rt).

Definition Stop (now : Z) (st : t * runtime) : t * runtime :=
  let '(d, rt) := st in
  let rt := elapse now rt in
  match timer d with
  | Some tm => ({| delay := delay d; timer := None |}, Timer_Stop tm rt)
  | None => (d, rt)
  end.

(** Flush fires the function immediately if a trigger is pending. *)
Definition Flush (now : Z) (st : t * runtime) : t * runtime :=
  let '(d, rt) := st in
  let rt := elapse now rt in
  match timer d with
  | Some tm =>
      ({| delay := delay d; timer := None |}, fire now (Timer_Stop tm rt))
  | None => (d, rt)
  end.

(** A run of Trigger calls at the given instants, in order. *)
Fixpoint triggers (ts : list Z) (st : t * runtime) : t * runtime :=
  match ts with
  | [] => st
  | now :: rest => triggers rest (Trigger now st)
  end.

(** Consecutive instants are in order and less than [gap] apart. *)
Fixpoint spaced_within (gap : Z) (ts : list Z) : Prop :=
  match ts with
  | t1 :: ((t2 :: _) as rest) => t1 <= t2 /\ t2 - t1 < gap /\ spaced_within gap rest
  | _ => True
  end.

(** The instants at which the action has run by instant [now]. *)
Definition fired_by (now : Z) (st : t * runtime) : list Z :=
  calls (elapse now (snd st)).

End Debouncer.

(* --------------------------------------------------------------------- *)
(*  package gitops: GitOps.commitAndPush                                   *)
(* --------------------------------------------------------------------- *)

Module GitOps.

(** One invocation of the git binary: cmd.Dir and the argument list. *)
Record command : Set := mkCommand { cmd_dir : string; cmd_args : list string }.

(** The version-control tool is external: given the invocations so far
    and the next one, it answers with the combined output and the error
    of exec, nil for exit status 0. *)
Definition git_tool : Type := list command -> command -> string * option error.

Inductive level : Set := Info | Warn.

(** What a run leaves behind: the git invocations and the log lines. *)
Record world : Set := mkWorld {
  invoked : list command;
  logged : list (level * string)
}.

Record t : Set := mkGitOps {
  root : string;
  sessionID : string;
  branch : string;
  origBranch : string
}.

(** The wall clock, as time.Now() in the local zone. *)
Record wallclock : Set := mkClock { hour : Z; minute : Z; second : Z }.

Definition digit (n : Z) : ascii := ascii_of_nat (Z.to_nat (48 + n mod 10)).
Definition two_digits (n : Z) : string :=
  String (digit (n / 10)) (String (digit n) "").

(** time.Now().Format("15:04:05") *)
Definition Format_15_04_05 (now : wallclock) : string :=
  two_digits (hour now) +:+ ":" +:+ two_digits (minute now)
    +:+ ":" +:+ two_digits (second now).

Definition runGit (git : git_tool) (dir : string) (args : list string)
    (w : world) : (string * option error) * world :=
  let cmd := {| cmd_dir := dir; cmd_args := args |} in
  (git (invoked w) cmd,
   {| invoked := invoked w ++ [cmd]; logged := logged w |}).

Definition log (l : level) (msg : string) (w : world) : world :=
  {| invoked := invoked w; logged := logged w ++ [(l, msg)] |}.

(** commitAndPush; the commitMu mutex serialises whole runs, so a run
    is taken as one step. *)
Definition commitAndPush (git : git_tool) (now : wallclock) (g : t) (w : world)
    : option error * world :=
  (* Stage all changes *)
  match runGit git (root g) ["add"; "-A"] w with
  | ((_, Some err), w) => (Some (Wrapped "git add" err), w)
  | ((_, None), w) =>
      (* Check if there are staged changes *)
      match runGit git (root g) ["diff"; "--cached"; "--quiet"] w with
      | ((_, None), w) => (None, w)   (* No changes to commit *)
      | ((_, Some _), w) =>
          (* Commit *)
          let ts := Format_15_04_05 now in
          let msg := "mob: auto-save at " +:+ ts in
          match runGit git (root g) ["commit"; "-m"; msg] w with
          | ((_, Some err), w) => (Some (Wrapped "git commit" err), w)
          | ((_, None), w) =>
              let w := log Info "Auto-committed" w in
              (* Push (best effort) *)
              match runGit git (root g) ["push"; "-u"; "origin"; branch g] w with
              | ((_, Some err), w) => (None, log Warn "Push failed (no remote?)" w)
              | ((_, None), w) => (None, w)
              end
          end
      end
  end.

End GitOps.

(* --------------------------------------------------------------------- *)
(*  Vocabulary of the properties                                           *)
(* --------------------------------------------------------------------- *)

(* Rooted paths *)

(** A byte that is not the separator. *)
Definition nonsep (c : ascii) : Prop := filepath.IsPathSeparator c = false.

(** A path element: not empty, without separator. *)
Definition plain (x : list ascii) : Prop := x <> [] /\ Forall nonsep x.

(** A path element that is neither "." nor "..". *)
Definition good (x : list ascii) : Prop :=
  plain x /\ x <> [filepath.dot] /\ x <> [filepath.dot; filepath.dot].

(** The elements of a rooted path written out, each after a separator. *)
Fixpoint render (st : list (list ascii)) : list ascii :=
  match st with
  | [] => []
  | x :: st' => filepath.Separator :: x ++ render st'
  end.

(** The output buffer of Clean on a rooted path whose elements so far are
    [st]: the root alone, or the elements. *)
Definition rooted_out (st : list (list ascii)) : list ascii :=
  match st with
  | [] => [filepath.Separator]
  | _ => render st
  end.

(* The error tables *)

(** The host table in the words of the specification: the status code for
    an os error, by its class. *)
Definition host_table (err : error) : Code :=
  if os.IsNotExist err then NotFound
  else if os.IsPermission err then PermissionDenied
  else if os.IsExist err then AlreadyExists
  else Internal.

(** A failure of a handler follows the table: it is the resolver's
    INVALID_ARGUMENT, or the code the table gives for the os error behind
    it, with the text of that error (after "seek: " or "write: " where the
    handler says which step failed). *)
Definition follows_host_table (e : error) : Prop :=
  e = StatusError InvalidArgument "path escapes workspace root"
  \/ exists (err : error) (step : string),
       e = StatusError (host_table err) (step +:+ Error err).

(** The client table in the words of the specification. *)
Definition client_table (c : Code) : Z :=
  match c with
  | NotFound => - fuse.ENOENT
  | PermissionDenied => - fuse.EACCES
  | AlreadyExists => - fuse.EEXIST
  | InvalidArgument => - fuse.EINVAL
  | DeadlineExceeded => - fuse.EIO
  | Unavailable => - fuse.EIO
  | _ => - fuse.EIO
  end.

(* File modes and block counts *)

(** The file types of the mode table. *)
Definition valid_type (st_mode : Z) : bool :=
  let ty := Z.land st_mode syscall.S_IFMT in
  (ty =? syscall.S_IFREG) || (ty =? syscall.S_IFDIR) || (ty =? syscall.S_IFLNK)
  || (ty =? syscall.S_IFIFO) || (ty =? syscall.S_IFSOCK)
  || (ty =? syscall.S_IFCHR) || (ty =? syscall.S_IFBLK).

Definition mode_survives (st_mode : Z) : bool :=
  negb (valid_type st_mode)
  || (FileServer.goModeToUnix (os.fileModeFromSys st_mode) =? st_mode).

(** A check of every integer in [z, z + fuel). *)
Fixpoint all_from (P : Z -> bool) (fuel : nat) (z : Z) : bool :=
  match fuel with
  | O => true
  | S fuel' => P z && all_from P fuel' (z + 1)
  end.

(** [is_ceil_div n d q]: q is n / d rounded up. *)
Definition is_ceil_div (n d q : Z) : Prop := d * (q - 1) < n <= d * q.

(** A regular file of 2^63 - 1 bytes, the largest size an int64 holds. *)
Definition huge_file : FileInfo :=
  {| fi_Name := "sparse.img"; fi_Size := 2 ^ 63 - 1;
     fi_Mode := oct "644"; fi_ModTime := mkTime 1700000000 0 |}.

(* statfs *)

(** One tebibyte. *)
Definition TiB : Z := 2 ^ 40.

(** The capacity a statfs answer stands for: blocks times fragment size. *)
Definition capacity (s : fuse.Statfs.Statfs_t) : Z :=
  fuse.Statfs.Blocks s * fuse.Statfs.Frsize s.

(** "Approximately 1 TiB", read generously: within a factor of two. *)
Definition about_one_TiB (bytes : Z) : Prop := TiB / 2 <= bytes <= 2 * TiB.

(** The zero value [fuse.Statfs_t{}]. *)
Definition Statfs_zero : fuse.Statfs.Statfs_t :=
  fuse.Statfs.mkStatfs 0 0 0 0 0 0 0 0 0 0 0.

(* A sample workspace *)

(** A small workspace at /ws, as the server's tests set it up: the file
    test.txt holding "initial", an empty file, a read-only file and a
    directory. *)
Definition regular_file (perm : Z) (content : string) : hostfs.inode :=
  {| hostfs.i_mode := perm; hostfs.i_mtime := mkTime 1700000000 0;
     hostfs.i_data := list_byte_of_string content |}.

Definition directory (perm : Z) : hostfs.inode :=
  {| hostfs.i_mode := Z.lor os.ModeDir perm;
     hostfs.i_mtime := mkTime 1700000000 0; hostfs.i_data := [] |}.

Definition sample_fs : hostfs.t :=
  {| hostfs.files :=
       <["/ws/test.txt" := regular_file (oct "644") "initial"]>
       (<["/ws/empty.txt" := regular_file (oct "644") ""]>
       (<["/ws/locked.txt" := regular_file (oct "444") "fixed"]>
       (<["/ws/subdir" := directory (oct "755")]>
       {["/ws" := directory (oct "755")]})));
     hostfs.clock := mkTime 1700000100 0 |}.

(* Writes *)

(** Every byte of [old] at a position outside [ofst, ofst + n) is still
    there in [new]. *)
Definition unchanged_outside (ofst n : Z) (old new : list Byte.byte) : Prop :=
  forall (k : nat) (b : Byte.byte),
    old !! k = Some b ->
    Z.of_nat k < ofst \/ ofst + n <= Z.of_nat k ->
    new !! k = Some b.

(** The bytes of [buf] stand in [new] from position [ofst] on. *)
Definition written_at (ofst : Z) (buf new : list Byte.byte) : Prop :=
  forall (j : nat) (b : Byte.byte),
    buf !! j = Some b -> new !! (Z.to_nat ofst + j)%nat = Some b.

(** A connection that only records the WriteFile requests it is given and
    accepts them; every other call is unimplemented. *)
Definition recorder : FileServiceClient (list pb.WriteFileRequest) :=
  let no {A} : result A := Err (StatusError Unimplemented "not recorded") in
  {| rpc_Stat := fun _ log => (no, log);
     rpc_ReadFile := fun _ log => (no, log);
     rpc_WriteFile := fun req log => (Ok tt, log ++ [req]);
     rpc_Create := fun _ log => (no, log);
     rpc_Mkdir := fun _ log => (no, log);
     rpc_Chmod := fun _ log => (no, log);
     rpc_Truncate := fun _ log => (no, log) |}.

(* The debouncer *)

(** A timer that will never fire any more. *)
Definition spent (tm : Debouncer.Timer) : Prop :=
  Debouncer.state tm <> Debouncer.Pending.

(** The state after a run of triggers: every timer but the newest is
    spent, the newest is pending, and the action has run only at the
    instants [ran] of before the run. *)
Definition armed (delay last : Z) (old : list Debouncer.Timer) (ran : list Z)
    : Debouncer.t * Debouncer.runtime :=
  ({| Debouncer.delay := delay; Debouncer.timer := Some (List.length old) |},
   {| Debouncer.timers :=
        old ++ [{| Debouncer.deadline := last + Z.max 0 delay;
                   Debouncer.state := Debouncer.Pending |}];
      Debouncer.calls := ran |}).

(* commitAndPush *)

(** The four invocations of a commitAndPush run. *)
Definition add_cmd (g : GitOps.t) : GitOps.command :=
  GitOps.mkCommand (GitOps.root g) ["add"; "-A"].
Definition diff_cmd (g : GitOps.t) : GitOps.command :=
  GitOps.mkCommand (GitOps.root g) ["diff"; "--cached"; "--quiet"].
Definition commit_cmd (g : GitOps.t) (now : GitOps.wallclock) : GitOps.command :=
  GitOps.mkCommand (GitOps.root g)
    ["commit"; "-m"; "mob: auto-save at " +:+ GitOps.Format_15_04_05 now].
Definition push_cmd (g : GitOps.t) : GitOps.command :=
  GitOps.mkCommand (GitOps.root g) ["push"; "-u"; "origin"; GitOps.branch g].

Definition is_commit (c : GitOps.command) : bool :=
  match GitOps.cmd_args c with
  | verb :: _ => String.eqb verb "commit"
  | [] => false
  end.

(** The invocations a run adds to those made before it. *)
Definition run_of (w w' : GitOps.world) : list GitOps.command :=
  skipn (List.length (GitOps.invoked w)) (GitOps.invoked w').

(** The answers of the tool to the invocations of a run that starts after
    the invocations [h]. *)
Definition add_answer (git : GitOps.git_tool) (g : GitOps.t)
    (h : list GitOps.command) : option error :=
  snd (git h (add_cmd g)).
Definition diff_answer (git : GitOps.git_tool) (g : GitOps.t)
    (h : list GitOps.command) : option error :=
  snd (git (h ++ [add_cmd g]) (diff_cmd g)).
Definition commit_answer (git : GitOps.git_tool) (g : GitOps.t)
    (now : GitOps.wallclock) (h : list GitOps.command) : option error :=
  snd (git (h ++ [add_cmd g; diff_cmd g]) (commit_cmd g now)).
Definition push_answer (git : GitOps.git_tool) (g : GitOps.t)
    (now : GitOps.wallclock) (h : list GitOps.command) : option error :=
  snd (git (h ++ [add_cmd g; diff_cmd g; commit_cmd g now]) (push_cmd g)).

(** C5 as it is stated, for runs whose staging succeeds: when the diff
    exits 0 the run succeeds without a commit; otherwise one commit is
    made, a push is attempted and the run succeeds. *)
Definition commitAndPush_as_stated : Prop :=
  forall (git : GitOps.git_tool) (now : GitOps.wallclock) (g : GitOps.t)
         (w : GitOps.world),
    let r := GitOps.commitAndPush git now g w in
    let h := GitOps.invoked w in
    add_answer git g h = None ->
    hd_error (run_of w (snd r)) = Some (add_cmd g)
    /\ (diff_answer git g h = None ->
        fst r = None /\ List.filter is_commit (run_of w (snd r)) = [])
    /\ (diff_answer git g h <> None ->
        List.filter is_commit (run_of w (snd r)) = [commit_cmd g now]
        /\ commit_answer git g now h = None
        /\ In (push_cmd g) (run_of w (snd r))
        /\ fst r = None).

(** The error of exec for a command that ends with a non-zero status. *)
Definition exit_status (n : Z) : error := ErrorString ("exit status " +:+ itoa n).

(** A repository with changes to commit in which `git commit` fails, as it
    does when no author identity is configured; every other invocation
    succeeds except the diff, which exits 1. *)
Definition git_without_identity : GitOps.git_tool :=
  fun _ cmd =>
    match GitOps.cmd_args cmd with
    | verb :: _ =>
        if String.eqb verb "diff" then ("", Some (exit_status 1))
        else if String.eqb verb "commit"
          then ("Author identity unknown", Some (exit_status 128))
        else ("", None)
    | [] => ("", None)
    end.

(** A repository with changes whose remote is unreachable: the push fails. *)
Definition git_without_remote : GitOps.git_tool :=
  fun _ cmd =>
    match GitOps.cmd_args cmd with
    | verb :: _ =>
        if String.eqb verb "diff" then ("", Some (exit_status 1))
        else if String.eqb verb "push"
          then ("fatal: 'origin' does not appear to be a git repository",
                Some (exit_status 128))
        else ("", None)
    | [] => ("", None)
    end.

Definition session : GitOps.t :=
  {| GitOps.root := "/ws"; GitOps.sessionID := "1a2b3c4d";
     GitOps.branch := "mob/session-1a2b3c4d"; GitOps.origBranch := "main" |}.

Definition fresh_world : GitOps.world :=
  {| GitOps.invoked := []; GitOps.logged := [] |}.

(* ===================================================================== *)
(*  Part II.  Properties                                                   *)
(* ===================================================================== *)

(* --------------------------------------------------------------------- *)
(*  Strings                                                                *)
(* --------------------------------------------------------------------- *)

Lemma append_String (c : ascii) (a b : string) :
  String c a +:+ b = String c (a +:+ b).
Proof. reflexivity. Qed.

Lemma append_empty_l (b : string) : "" +:+ b = b.
Proof. reflexivity. Qed.

Lemma prefix_split (p s : string) :
  String.prefix p s = true -> exists t, s = p +:+ t.
Proof.
  revert s; induction p as [|c p IH]; intros s H.
  - exists s; reflexivity.
  - destruct s as [|c' s]; simpl in H; [discriminate|].
    destruct (Ascii.ascii_dec c c') as [->|]; [|discriminate].
    destruct (IH _ H) as [t ->]. exists t; reflexivity.
Qed.

Lemma prefix_append (p t : string) : String.prefix p (p +:+ t) = true.
Proof.
  induction p as [|c p IH].
  - rewrite append_empty_l. destruct t; reflexivity.
  - rewrite append_String. simpl.
    destruct (Ascii.ascii_dec c c); [assumption|congruence].
Qed.

Lemma HasPrefix_iff (s p : string) :
  strings.HasPrefix s p = true <-> exists t, s = p +:+ t.
Proof.
  split; [apply prefix_split|intros [t ->]; apply prefix_append].
Qed.

Lemma append_cancel_l (p x y : string) : p +:+ x = p +:+ y -> x = y.
Proof.
  induction p as [|c p IH]; intros H; [exact H|].
  rewrite !append_String in H. injection H as H. apply IH, H.
Qed.

Lemma append_assoc (a b c : string) : (a +:+ b) +:+ c = a +:+ (b +:+ c).
Proof.
  induction a as [|x a IH]; [reflexivity|].
  rewrite !append_String, IH. reflexivity.
Qed.

Lemma append_nil_r (a : string) : a +:+ "" = a.
Proof.
  induction a as [|x a IH]; [reflexivity|].
  rewrite append_String, IH. reflexivity.
Qed.

Lemma length_append (a b : string) :
  String.length (a +:+ b) = (String.length a + String.length b)%nat.
Proof.
  induction a as [|x a IH]; [reflexivity|].
  rewrite append_String. simpl. rewrite IH. reflexivity.
Qed.

Lemma append_self_absurd (p : string) (c : ascii) (t : string) :
  p <> p +:+ String c t.
Proof.
  intros H. apply (f_equal String.length) in H.
  rewrite length_append in H. simpl in H. lia.
Qed.

(* --------------------------------------------------------------------- *)
(*  The path resolver                                                      *)
(* --------------------------------------------------------------------- *)

(** What an accepted path looks like, and the only error there is. *)
Lemma resolve_cases (root rel : string) :
  match FileServer.resolve root rel with
  | Ok a => a = root \/ exists t, a = root +:+ "/" +:+ t
  | Err e => e = StatusError InvalidArgument "path escapes workspace root"
  end.
Proof.
  unfold FileServer.resolve.
  set (abs := filepath.Join _).
  destruct (String.eqb abs root) eqn:E; simpl.
  - left. apply String.eqb_eq. exact E.
  - destruct (strings.HasPrefix abs _) eqn:P; simpl; [|reflexivity].
    right. apply HasPrefix_iff in P. destruct P as [t ->].
    exists t. rewrite append_assoc. reflexivity.
Qed.

(** C1.  For every workspace root and every wire path, the resolver either
    returns a path equal to the root or beginning with root + "/", or fails
    with INVALID_ARGUMENT "path escapes workspace root".  It never returns
    the root followed by anything but a separator, so a sibling such as
    root + "-secrets" is never returned; and under an absolute root the
    returned path is absolute. *)
Theorem resolve_confined (root rel : string) :
  match FileServer.resolve root rel with
  | Ok a =>
      (a = root \/ exists t, a = root +:+ "/" +:+ t)
      /\ (forall c t, c <> "/"%char -> a <> root +:+ String c t)
      /\ (forall r, root = String "/" r -> exists a', a = String "/" a')
  | Err e => e = status.Error InvalidArgument "path escapes workspace root"
  end.
Proof.
  pose proof (resolve_cases root rel) as H.
  destruct (FileServer.resolve root rel) as [a|e]; [|exact H].
  split; [exact H|split].
  - intros c t Hc Ha. destruct H as [->|[t' ->]].
    + exact (append_self_absurd _ _ _ Ha).
    + apply append_cancel_l in Ha. rewrite append_String in Ha. congruence.
  - intros r ->. destruct H as [->|[t ->]]; [eauto|].
    rewrite append_String. eauto.
Qed.

(** The two traversal scenarios of the server's tests, and a root that is
    a proper prefix of a sibling's name. *)
Lemma resolve_confined_witness :
  FileServer.resolve "/tmp/ws" "../../etc/passwd" = Ok "/tmp/ws/etc/passwd"
  /\ FileServer.resolve "/tmp/app" "../app-secrets/key.pem"
     = Ok "/tmp/app/app-secrets/key.pem"
  /\ "/tmp/app/app-secrets/key.pem" <> "/tmp/app" +:+ String "-" "secrets/key.pem".
Proof.
  split; [reflexivity|split; [reflexivity|]].
  pose proof (resolve_confined "/tmp/app" "../app-secrets/key.pem") as H.
  change (FileServer.resolve "/tmp/app" "../app-secrets/key.pem")
    with (@Ok string "/tmp/app/app-secrets/key.pem") in H.
  destruct H as (_ & H & _). apply H. discriminate.
Defined.

(* --------------------------------------------------------------------- *)
(*  Clean and Join on rooted paths                                         *)
(* --------------------------------------------------------------------- *)

Section CleanFacts.
Import filepath.

Lemma sep_or_not (c : ascii) : IsPathSeparator c = true \/ nonsep c.
Proof. unfold nonsep. destruct (IsPathSeparator c); auto. Qed.

Lemma IsPathSeparator_true (c : ascii) : IsPathSeparator c = true -> c = Separator.
Proof. unfold IsPathSeparator. apply Ascii.eqb_eq. Qed.

Lemma is_dot_true (c : ascii) : is_dot c = true -> c = dot.
Proof. unfold is_dot. apply Ascii.eqb_eq. Qed.

Lemma dot_nonsep : nonsep dot.
Proof. reflexivity. Qed.

Lemma render_app (a b : list (list ascii)) : render (a ++ b) = render a ++ render b.
Proof.
  induction a as [|x a IH]; [reflexivity|].
  simpl. rewrite IH, <- app_assoc. reflexivity.
Qed.

Lemma render_boundary (q : list (list ascii)) (tail : list ascii) :
  at_end_or_sep tail = true -> at_end_or_sep (render q ++ tail) = true.
Proof. destruct q; [auto|reflexivity]. Qed.

Lemma copy_element_app (x tail : list ascii) :
  Forall nonsep x -> at_end_or_sep tail = true ->
  copy_element (x ++ tail) = (x, tail).
Proof.
  intros Hx Ht. induction Hx as [|c x Hc _ IH].
  - destruct tail as [|c tail]; [reflexivity|].
    simpl in *. rewrite Ht. reflexivity.
  - simpl. rewrite Hc, IH. reflexivity.
Qed.

Lemma copy_element_split (p : list ascii) :
  exists el rest,
    copy_element p = (el, rest) /\ p = el ++ rest
    /\ Forall nonsep el /\ at_end_or_sep rest = true.
Proof.
  induction p as [|c p IH].
  - exists [], []. repeat split; constructor.
  - destruct IH as (el & rest & He & Hp & Hel & Hr). simpl.
    destruct (sep_or_not c) as [Hc|Hc].
    + rewrite Hc. exists [], (c :: p). repeat split; [constructor|exact Hc].
    + rewrite Hc, He. exists (c :: el), rest.
      split; [reflexivity|]. split; [simpl; congruence|].
      split; [constructor; assumption|exact Hr].
Qed.

(** Separators alone add nothing to the output. *)
Lemma clean_loop_seps (fuel : nat) (rooted : bool) (p out : list ascii) (dd : nat) :
  Forall (fun c => IsPathSeparator c = true) p ->
  clean_loop fuel rooted p out dd = out.
Proof.
  revert p; induction fuel as [|fuel IH]; intros p Hp; [reflexivity|].
  destruct Hp as [|c p Hc Hp]; [reflexivity|].
  simpl. rewrite Hc. apply IH, Hp.
Qed.


Lemma clean_loop_unfold (fuel : nat) (rooted : bool) (c : ascii)
    (rest out : list ascii) (dd : nat) :
  clean_loop (S fuel) rooted (c :: rest) out dd =
  if IsPathSeparator c then clean_loop fuel rooted rest out dd
  else if is_dot c && at_end_or_sep rest then clean_loop fuel rooted rest out dd
  else if is_dot c && is_dot (hd Separator rest) && at_end_or_sep (tl rest) then
    if (dd <? List.length out)%nat then
      clean_loop fuel rooted (tl rest) (backtrack out dd) dd
    else if negb rooted then
      let out1 := if (0 <? List.length out)%nat then out ++ [Separator] else out in
      let out2 := out1 ++ [dot; dot] in
      clean_loop fuel rooted (tl rest) out2 (List.length out2)
    else clean_loop fuel rooted (tl rest) out dd
  else
    let out1 :=
      if (rooted && negb (List.length out =? 1)%nat)
         || (negb rooted && negb (List.length out =? 0)%nat)
      then out ++ [Separator] else out in
    let '(el, rest') := copy_element (c :: rest) in
    clean_loop fuel rooted rest' (out1 ++ el) dd.
Proof. reflexivity. Qed.

Lemma backtrack_loop_run (buf : list ascii) (dd m : nat) :
  forall k fuel,
    (k <= fuel)%nat ->
    (forall j, (1 <= j <= k)%nat -> nonsep (nth (m + j) buf Separator)) ->
    (dd <= m)%nat ->
    m = dd \/ IsPathSeparator (nth m buf Separator) = true ->
    backtrack_loop fuel buf dd (m + k) = m.
Proof.
  induction k as [|k IH]; intros fuel Hf Hns Hdd Hm.
  - rewrite Nat.add_0_r. destruct fuel as [|fuel]; [reflexivity|].
    simpl. destruct Hm as [->|Hm].
    + rewrite Nat.ltb_irrefl. reflexivity.
    + rewrite Hm, andb_false_r. reflexivity.
  - destruct fuel as [|fuel]; [lia|]. simpl.
    assert (Hlt : (dd <? m + S k)%nat = true) by (apply Nat.ltb_lt; lia).
    rewrite Hlt, (Hns (S k) ltac:(lia)). simpl.
    replace (m + S k - 1)%nat with (m + k)%nat by lia.
    apply IH; [lia| |exact Hdd|exact Hm].
    intros j Hj. apply Hns. lia.
Qed.

Lemma nth_nonsep (x : list ascii) (j : nat) (d : ascii) :
  Forall nonsep x -> (j < List.length x)%nat -> nonsep (nth j x d).
Proof.
  intros Hx. revert j. induction Hx as [|c x Hc _ IH]; intros j Hj.
  - simpl in Hj. lia.
  - destruct j as [|j]; [exact Hc|]. simpl. apply IH. simpl in Hj. lia.
Qed.

Lemma render_nonempty (a : list ascii) (st : list (list ascii)) :
  a <> [] -> (2 <= List.length (render (a :: st)))%nat.
Proof.
  intros Ha. simpl. rewrite length_app.
  destruct a; [congruence|simpl; lia].
Qed.

Lemma backtrack_render (st : list (list ascii)) (x : list ascii) :
  plain x -> backtrack (render (st ++ [x])) 1 = rooted_out st.
Proof.
  intros [Hx Hns]. rewrite render_app. simpl render at 2. rewrite app_nil_r.
  unfold backtrack.
  set (pre := render st). set (buf := pre ++ Separator :: x).
  assert (Hnth : forall j, (1 <= j <= List.length x)%nat ->
            nonsep (nth (List.length pre + j) buf Separator)).
  { intros j Hj. unfold buf.
    rewrite app_nth2 by lia.
    replace (List.length pre + j - List.length pre)%nat with (S (j - 1)) by lia.
    simpl. apply nth_nonsep; [exact Hns|lia]. }
  assert (Hlen : List.length buf = (List.length pre + 1 + List.length x)%nat)
    by (unfold buf; rewrite length_app; simpl; lia).
  destruct st as [|a st].
  - (* the root alone is left *)
    subst pre buf. simpl in *.
    assert (Hx1 : (1 <= List.length x)%nat) by (destruct x; [congruence|simpl; lia]).
    replace (List.length x - 0)%nat with (1 + (List.length x - 1))%nat by lia.
    rewrite (backtrack_loop_run (Separator :: x) 1 1 (List.length x - 1)
               (1 + (List.length x - 1)) ltac:(lia)); [reflexivity| |lia|left; reflexivity].
    intros j Hj. apply (Hnth (S j)). lia.
  - assert (Hpre : (1 <= List.length pre)%nat) by (subst pre; simpl; lia).
    rewrite Hlen.
    replace (List.length pre + 1 + List.length x - 1)%nat
      with (List.length pre + List.length x)%nat by lia.
    rewrite (backtrack_loop_run buf 1 (List.length pre) (List.length x)
               (List.length pre + List.length x) ltac:(lia) Hnth Hpre).
    + unfold buf. rewrite firstn_app, Nat.sub_diag, firstn_all. simpl.
      rewrite app_nil_r. reflexivity.
    + right. unfold buf. rewrite app_nth2 by lia. rewrite Nat.sub_diag. reflexivity.
Qed.


Lemma good_plain (x : list ascii) : good x -> plain x.
Proof. intros [H _]. exact H. Qed.

Lemma rooted_out_snoc (acc : list (list ascii)) (x : list ascii) :
  Forall plain acc ->
  (if (true && negb (List.length (rooted_out acc) =? 1)%nat)
      || (negb true && negb (List.length (rooted_out acc) =? 0)%nat)
   then rooted_out acc ++ [Separator] else rooted_out acc) ++ x
  = rooted_out (acc ++ [x]).
Proof.
  intros Hacc. destruct acc as [|a acc].
  - simpl. rewrite app_nil_r. reflexivity.
  - assert (Ha : a <> []) by (inversion Hacc as [|? ? [Ha _] _]; exact Ha).
    pose proof (render_nonempty a acc Ha) as Hlen.
    change (rooted_out (a :: acc)) with (render (a :: acc)).
    destruct (List.length (render (a :: acc)) =? 1)%nat eqn:E;
      [apply Nat.eqb_eq in E; lia|].
    change (rooted_out ((a :: acc) ++ [x])) with (render ((a :: acc) ++ [x])).
    rewrite render_app. simpl. rewrite app_nil_r, <- !app_assoc. reflexivity.
Qed.

(** A "." element is skipped. *)
Lemma clean_loop_dot (fuel : nat) (rooted : bool) (tail out : list ascii) (dd : nat) :
  at_end_or_sep tail = true ->
  clean_loop (S fuel) rooted (dot :: tail) out dd = clean_loop fuel rooted tail out dd.
Proof. intros Ht. rewrite clean_loop_unfold. simpl. rewrite Ht. reflexivity. Qed.

(** A ".." element removes the last element of a rooted path, if any. *)
Lemma clean_loop_dotdot (fuel : nat) (tail : list ascii)
    (st : list (list ascii)) :
  at_end_or_sep tail = true -> Forall plain st ->
  clean_loop (S fuel) true (dot :: dot :: tail) (rooted_out st) 1
  = clean_loop fuel true tail (rooted_out (removelast st)) 1.
Proof.
  intros Ht Hst. rewrite clean_loop_unfold. simpl hd. simpl tl.
  change (IsPathSeparator dot) with false.
  change (is_dot dot) with true.
  change (at_end_or_sep (dot :: tail)) with false.
  rewrite Ht. cbn [andb negb].
  destruct st as [|x st _] using rev_ind; [reflexivity|].
  rewrite removelast_last.
  apply Forall_app in Hst. destruct Hst as [Hst Hx].
  inversion Hx as [|? ? Hpx _]; subst.
  assert (Hlen : (1 <? List.length (rooted_out (st ++ [x])))%nat = true).
  { apply Nat.ltb_lt. destruct st as [|a st'].
    - simpl. destruct Hpx as [Hne _]. destruct x; [congruence|simpl; lia].
    - inversion Hst as [|? ? [Ha _] _]; subst.
      pose proof (render_nonempty a (st' ++ [x]) Ha). exact H. }
  rewrite Hlen.
  replace (rooted_out (st ++ [x])) with (render (st ++ [x]))
    by (destruct st; reflexivity).
  rewrite (backtrack_render st x Hpx). reflexivity.
Qed.

(** Any other element is appended after a separator. *)
Lemma clean_loop_elem (fuel : nat) (x tail : list ascii) (acc : list (list ascii)) :
  good x -> Forall plain acc -> at_end_or_sep tail = true ->
  clean_loop (S fuel) true (x ++ tail) (rooted_out acc) 1
  = clean_loop fuel true tail (rooted_out (acc ++ [x])) 1.
Proof.
  intros [[Hne Hns] [Hd Hdd]] Hacc Ht.
  pose proof (copy_element_app x tail Hns Ht) as Hcopy.
  destruct x as [|c x]; [congruence|].
  inversion Hns as [|? ? Hc Hx]; subst.
  change ((c :: x) ++ tail) with (c :: (x ++ tail)) in *.
  rewrite clean_loop_unfold. rewrite Hc.
  assert (H2 : is_dot c && at_end_or_sep (x ++ tail) = false).
  { destruct (is_dot c) eqn:Ec; [|reflexivity]. apply is_dot_true in Ec. subst c.
    destruct x as [|d x]; [congruence|].
    inversion Hx as [|? ? Hdn _]; subst. exact Hdn. }
  assert (H3 : is_dot c && is_dot (hd Separator (x ++ tail))
               && at_end_or_sep (tl (x ++ tail)) = false).
  { destruct (is_dot c) eqn:Ec; [|reflexivity]. apply is_dot_true in Ec. subst c.
    destruct x as [|d x].
    - simpl. destruct tail as [|t tail]; [reflexivity|].
      simpl in Ht. apply IsPathSeparator_true in Ht. subst t. reflexivity.
    - simpl. destruct (is_dot d) eqn:Ed; [|reflexivity].
      apply is_dot_true in Ed. subst d.
      destruct x as [|e x]; [congruence|].
      inversion Hx as [|? ? _ Hx']; subst.
      inversion Hx' as [|? ? He _]; subst. exact He. }
  rewrite H2, H3. cbv zeta. rewrite Hcopy.
  rewrite rooted_out_snoc by exact Hacc. reflexivity.
Qed.


Lemma Forall_removelast {A} (P : A -> Prop) (l : list A) :
  Forall P l -> Forall P (removelast l).
Proof.
  intros H. destruct l as [|x l _] using rev_ind; [constructor|].
  rewrite removelast_last. apply Forall_app in H. tauto.
Qed.

Lemma Forall_good_plain (st : list (list ascii)) : Forall good st -> Forall plain st.
Proof.
  induction 1 as [|x st Hx _ IH]; constructor; [apply good_plain, Hx|exact IH].
Qed.

(** Whatever the rest of a rooted path is, Clean's loop keeps the output a
    rooted sequence of elements none of which is "." or "..". *)
Lemma clean_loop_rooted (fuel : nat) :
  forall (p : list ascii) (st : list (list ascii)),
    (List.length p <= fuel)%nat -> Forall good st ->
    exists st', Forall good st'
      /\ clean_loop fuel true p (rooted_out st) 1 = rooted_out st'.
Proof.
  induction fuel as [|fuel IH]; intros p st Hlen Hst.
  - exists st. split; [exact Hst|reflexivity].
  - destruct p as [|c rest]; [exists st; split; [exact Hst|reflexivity]|].
    simpl in Hlen.
    destruct (sep_or_not c) as [Hc|Hc].
    + rewrite clean_loop_unfold, Hc. apply IH; [lia|exact Hst].
    + destruct (copy_element_split (c :: rest)) as (el & rest' & _ & Hp & Hel & Hr).
      assert (Hne : el <> []).
      { intros ->. simpl in Hp. subst rest'. simpl in Hr. unfold nonsep in Hc.
        congruence. }
      assert (Hl : (List.length rest' < List.length (c :: rest))%nat).
      { rewrite Hp, length_app. destruct el; [congruence|simpl; lia]. }
      simpl in Hl. rewrite Hp.
      destruct (decide (el = [dot])) as [->|Hd].
      { change ([dot] ++ rest') with (dot :: rest').
        rewrite (clean_loop_dot _ _ _ _ _ Hr). apply IH; [lia|exact Hst]. }
      destruct (decide (el = [dot; dot])) as [->|Hdd].
      { change ([dot; dot] ++ rest') with (dot :: dot :: rest').
        rewrite (clean_loop_dotdot _ _ _ Hr (Forall_good_plain _ Hst)).
        apply IH; [lia|apply Forall_removelast, Hst]. }
      assert (Hg : good el) by (repeat split; assumption).
      rewrite (clean_loop_elem _ _ _ _ Hg (Forall_good_plain _ Hst) Hr).
      apply IH; [lia|]. apply Forall_app. split; [exact Hst|].
      constructor; [exact Hg|constructor].
Qed.

(** On a sequence of written-out elements free of "." and "..", the loop
    appends them as they are. *)
Lemma clean_loop_render (q : list (list ascii)) :
  forall (fuel : nat) (tail : list ascii) (acc : list (list ascii)),
    (List.length (render q ++ tail) <= fuel)%nat ->
    Forall good q -> Forall plain acc -> at_end_or_sep tail = true ->
    exists fuel', (List.length tail <= fuel')%nat
      /\ clean_loop fuel true (render q ++ tail) (rooted_out acc) 1
         = clean_loop fuel' true tail (rooted_out (acc ++ q)) 1.
Proof.
  induction q as [|x q IH]; intros fuel tail acc Hlen Hq Hacc Ht.
  - exists fuel. rewrite app_nil_r. split; [exact Hlen|reflexivity].
  - inversion Hq as [|? ? Hx Hq']; subst.
    simpl in Hlen. rewrite !length_app in Hlen.
    assert (Hx1 : (1 <= List.length x)%nat).
    { destruct Hx as [[Hne _] _]. destruct x; [congruence|simpl; lia]. }
    destruct fuel as [|[|fuel]]; [lia|lia|].
    simpl render. change ((Separator :: x ++ render q) ++ tail)
      with (Separator :: ((x ++ render q) ++ tail)).
    rewrite clean_loop_unfold. change (IsPathSeparator Separator) with true.
    cbv iota. rewrite <- app_assoc.
    rewrite (clean_loop_elem _ _ _ _ Hx Hacc (render_boundary q tail Ht)).
    destruct (IH fuel tail (acc ++ [x])) as (fuel' & Hf & Heq).
    + rewrite length_app. lia.
    + exact Hq'.
    + apply Forall_app. split; [exact Hacc|].
      constructor; [apply good_plain, Hx|constructor].
    + exact Ht.
    + exists fuel'. split; [exact Hf|]. rewrite Heq, <- app_assoc. reflexivity.
Qed.


Lemma clean_loop_nil (fuel : nat) (rooted : bool) (out : list ascii) (dd : nat) :
  clean_loop fuel rooted [] out dd = out.
Proof. destruct fuel; reflexivity. Qed.

Lemma rooted_out_nonempty (st : list (list ascii)) : rooted_out st <> [].
Proof. destruct st; discriminate. Qed.

Lemma rooted_out_boundary (st : list (list ascii)) :
  exists t, rooted_out st = Separator :: t.
Proof. destruct st as [|x st]; simpl; eauto. Qed.

Lemma list_ascii_of_string_app (a b : string) :
  list_ascii_of_string (a +:+ b) = list_ascii_of_string a ++ list_ascii_of_string b.
Proof.
  induction a as [|c a IH]; [reflexivity|].
  rewrite append_String. simpl. rewrite IH. reflexivity.
Qed.

Lemma string_of_list_ascii_app (a b : list ascii) :
  string_of_list_ascii (a ++ b) = string_of_list_ascii a +:+ string_of_list_ascii b.
Proof.
  induction a as [|c a IH]; [reflexivity|].
  simpl. rewrite IH. reflexivity.
Qed.

Lemma Clean_rooted_eq (rest : list ascii) :
  Clean (string_of_list_ascii (Separator :: rest))
  = match clean_loop (S (List.length rest)) true rest (rooted_out []) 1 with
    | [] => "."
    | o => string_of_list_ascii o
    end.
Proof.
  unfold Clean. rewrite list_ascii_of_string_of_list_ascii.
  cbv beta iota zeta. change (IsPathSeparator Separator) with true. cbv iota.
  change (List.length (Separator :: rest)) with (S (List.length rest)).
  change [Separator] with (rooted_out []).
  destruct (clean_loop _ _ _ _ _); reflexivity.
Qed.

(** Clean of a rooted path is the root or a sequence of elements free of
    "." and "..". *)
Lemma Clean_rooted (rel : string) :
  exists st, Forall good st
    /\ Clean ("/" +:+ rel) = string_of_list_ascii (rooted_out st).
Proof.
  replace ("/" +:+ rel)
    with (string_of_list_ascii (Separator :: list_ascii_of_string rel))
    by (simpl; rewrite string_of_list_ascii_of_string; reflexivity).
  rewrite Clean_rooted_eq.
  destruct (clean_loop_rooted (S (List.length (list_ascii_of_string rel)))
              (list_ascii_of_string rel) [] ltac:(lia) (List.Forall_nil _))
    as (st & Hst & Heq).
  exists st. split; [exact Hst|]. rewrite Heq.
  pose proof (rooted_out_nonempty st). destruct (rooted_out st); congruence.
Qed.

(** Join of a clean root with a cleaned rooted path puts the elements of
    the path after those of the root. *)
Lemma Join_rooted (r st : list (list ascii)) :
  r <> [] -> Forall good r -> Forall good st ->
  Join [string_of_list_ascii (render r); string_of_list_ascii (rooted_out st)]
  = string_of_list_ascii (render (r ++ st)).
Proof.
  intros Hr Hgr Hst.
  destruct r as [|x r]; [congruence|]. clear Hr.
  inversion Hgr as [|? ? Hx Hgr']; subst.
  set (tail := Separator :: rooted_out st).
  assert (Htail : at_end_or_sep tail = true) by reflexivity.
  assert (Hs : strings_Join [string_of_list_ascii (render (x :: r));
                             string_of_list_ascii (rooted_out st)]
               = string_of_list_ascii (Separator :: (x ++ (render r ++ tail)))).
  { unfold strings_Join. change "/" with (string_of_list_ascii [Separator]).
    rewrite <- !string_of_list_ascii_app. f_equal.
    simpl. rewrite <- !app_assoc. reflexivity. }
  unfold Join.
  change (string_of_list_ascii (render (x :: r)) =? "")%string with false.
  cbv iota. rewrite Hs, Clean_rooted_eq.
  rewrite (clean_loop_elem _ _ _ _ Hx (List.Forall_nil _)
             (render_boundary r tail Htail)).
  destruct (clean_loop_render r
              (List.length (x ++ render r ++ tail)) tail ([] ++ [x]))
    as (fuel' & Hf & Heq).
  { rewrite !length_app. lia. }
  { exact Hgr'. }
  { constructor; [apply good_plain, Hx|constructor]. }
  { exact Htail. }
  rewrite Heq. clear Heq.
  change (([] ++ [x]) ++ r) with (x :: r).
  assert (Hout : clean_loop fuel' true tail (rooted_out (x :: r)) 1
                 = rooted_out ((x :: r) ++ st)).
  { unfold tail in *. simpl in Hf.
    destruct fuel' as [|fuel']; [lia|].
    rewrite clean_loop_unfold. change (IsPathSeparator Separator) with true.
    cbv iota.
    destruct st as [|y st].
    - rewrite app_nil_r. apply clean_loop_seps. repeat constructor.
    - change (rooted_out (y :: st)) with (render (y :: st)) in *.
      rewrite <- (app_nil_r (render (y :: st))).
      destruct (clean_loop_render (y :: st) fuel' [] (x :: r))
        as (fuel'' & _ & Heq).
      + rewrite app_nil_r. lia.
      + exact Hst.
      + apply Forall_good_plain, Hgr.
      + reflexivity.
      + rewrite Heq. apply clean_loop_nil. }
  rewrite Hout.
  change (rooted_out ((x :: r) ++ st)) with (render ((x :: r) ++ st)).
  simpl. reflexivity.
Qed.

End CleanFacts.

(** On a clean absolute root other than "/", the resolver accepts every
    wire path: it returns the root followed by the cleaned path, whose
    elements hold no "." and no "..". *)
Theorem resolve_total (root rel : string) (r : list (list ascii)) :
  r <> [] -> Forall good r -> root = string_of_list_ascii (render r) ->
  exists st, Forall good st
    /\ FileServer.resolve root rel = Ok (root +:+ string_of_list_ascii (render st)).
Proof.
  intros Hr Hgr ->.
  destruct (Clean_rooted rel) as (st & Hst & Hclean).
  exists st. split; [exact Hst|].
  unfold FileServer.resolve. rewrite Hclean, (Join_rooted r st Hr Hgr Hst).
  rewrite render_app, string_of_list_ascii_app.
  set (root := string_of_list_ascii (render r)).
  destruct st as [|y st].
  - simpl. rewrite append_nil_r, String.eqb_refl. reflexivity.
  - assert (Hp : strings.HasPrefix
                   (root +:+ string_of_list_ascii (render (y :: st)))
                   (root +:+ String filepath.Separator "") = true).
    { apply HasPrefix_iff.
      exists (string_of_list_ascii (y ++ render st)).
      rewrite append_assoc. reflexivity. }
    rewrite Hp, andb_false_r. reflexivity.
Qed.

(** The workspace of the traversal test is such a root. *)
Example resolve_total_tmp_ws (rel : string) :
  exists st, Forall good st
    /\ FileServer.resolve "/tmp/ws" rel
       = Ok ("/tmp/ws" +:+ string_of_list_ascii (render st)).
Proof.
  apply (resolve_total "/tmp/ws" rel
           [list_ascii_of_string "tmp"; list_ascii_of_string "ws"]).
  - discriminate.
  - repeat constructor; discriminate.
  - reflexivity.
Qed.

(* --------------------------------------------------------------------- *)
(*  The error codec                                                        *)
(* --------------------------------------------------------------------- *)

(** The three os predicates are exclusive: an error falls in at most one
    class, so the order of the tests in osErrToStatus does not matter. *)
Lemma os_classes_exclusive (err : error) :
  (os.IsNotExist err = true -> os.IsPermission err = false /\ os.IsExist err = false)
  /\ (os.IsPermission err = true -> os.IsNotExist err = false /\ os.IsExist err = false)
  /\ (os.IsExist err = true -> os.IsNotExist err = false /\ os.IsPermission err = false).
Proof.
  unfold os.IsNotExist, os.IsPermission, os.IsExist, os.underlyingErrorIs.
  destruct (os.underlyingError err) as [e|s| | | | | | |];
    try (split; [|split]; intros H0; discriminate H0).
  - unfold os.Errno_Is, syscall.ENOENT, syscall.EACCES, syscall.EPERM,
      syscall.EEXIST, syscall.ENOTEMPTY.
    split; [|split]; intros H0;
      repeat match goal with
      | Hx : (_ || _) = true |- _ => apply orb_true_iff in Hx; destruct Hx
      | Hx : (_ =? _) = true |- _ => apply Z.eqb_eq in Hx; subst
      end; split; reflexivity.
  - destruct s; split; [| split | | split | | split | | split | | split];
      intros H0; (discriminate H0 || (split; reflexivity)).
Qed.

Lemma Errorf_plain (c : Code) (err : error) :
  status.Errorf c "" err = StatusError c (Error err).
Proof. reflexivity. Qed.

(** The host table, by class. *)
Lemma osErrToStatus_table (err : error) :
  (os.IsNotExist err = true ->
     FileServer.osErrToStatus err = StatusError NotFound (Error err))
  /\ (os.IsPermission err = true ->
     FileServer.osErrToStatus err = StatusError PermissionDenied (Error err))
  /\ (os.IsExist err = true ->
     FileServer.osErrToStatus err = StatusError AlreadyExists (Error err))
  /\ (os.IsNotExist err = false -> os.IsPermission err = false ->
      os.IsExist err = false ->
     FileServer.osErrToStatus err = StatusError Internal (Error err)).
Proof.
  destruct (os_classes_exclusive err) as (H1 & H2 & H3).
  unfold FileServer.osErrToStatus. rewrite !Errorf_plain.
  repeat split.
  - intros H. rewrite H. reflexivity.
  - intros H. destruct (H2 H) as [-> _]. rewrite H. reflexivity.
  - intros H. destruct (H3 H) as [-> ->]. rewrite H. reflexivity.
  - intros -> -> ->. reflexivity.
Qed.

(** The classes in terms of the errno an os call wraps in its PathError. *)
Lemma PathError_class (op path : string) (e : Z) :
  os.IsNotExist (PathError op path (Errno e)) = (e =? syscall.ENOENT)
  /\ os.IsPermission (PathError op path (Errno e))
     = ((e =? syscall.EACCES) || (e =? syscall.EPERM))
  /\ os.IsExist (PathError op path (Errno e))
     = ((e =? syscall.EEXIST) || (e =? syscall.ENOTEMPTY)).
Proof. repeat split. Qed.

(** The client table on status errors, code by code. *)
Lemma errToFuse_status (c : Code) (msg : string) :
  RemoteFS.errToFuse (Some (StatusError c msg)) =
  match c with
  | NotFound => - fuse.ENOENT
  | PermissionDenied => - fuse.EACCES
  | AlreadyExists => - fuse.EEXIST
  | InvalidArgument => - fuse.EINVAL
  | _ => - fuse.EIO
  end.
Proof. destruct c; reflexivity. Qed.

Lemma osErrToStatus_host_table (err : error) :
  FileServer.osErrToStatus err = StatusError (host_table err) (Error err).
Proof.
  unfold FileServer.osErrToStatus, host_table.
  destruct (os.IsNotExist err); [reflexivity|].
  destruct (os.IsPermission err); [reflexivity|].
  destruct (os.IsExist err); reflexivity.
Qed.

Lemma follows_codec (err : error) : follows_host_table (FileServer.osErrToStatus err).
Proof. right. exists err, "". apply osErrToStatus_host_table. Qed.

Lemma follows_resolver (root rel : string) (e : error) :
  FileServer.resolve root rel = Err e -> follows_host_table e.
Proof.
  intros H. left. pose proof (resolve_cases root rel) as R.
  rewrite H in R. exact R.
Qed.

Lemma Stat_failure (root : string) (req : pb.StatRequest) (fs : hostfs.t) (e : error) :
  FileServer.Stat root req fs = Err e -> follows_host_table e.
Proof.
  unfold FileServer.Stat. intros H.
  destruct (FileServer.resolve root (pb.stat_Path req)) eqn:R.
  - destruct (hostfs.Lstat fs v); [discriminate|].
    injection H as <-. apply follows_codec.
  - injection H as <-. eapply follows_resolver, R.
Qed.

Lemma Seek_failure (f : hostfs.File) (off : Z) (err : error) :
  hostfs.Seek f off = Err err -> host_table err = Internal.
Proof.
  unfold hostfs.Seek. destruct (off <? 0); [|discriminate].
  intros H. injection H as <-. reflexivity.
Qed.

Lemma Write_failure (fs : hostfs.t) (f : hostfs.File) (buf : list Byte.byte)
    (err : error) :
  fst (hostfs.Write fs f buf) = Err err -> host_table err = Internal.
Proof.
  unfold hostfs.Write.
  destruct (hostfs.files fs !! hostfs.f_name f) as [i|].
  - destruct (negb (hostfs.is_regular i)).
    + intros H. injection H as <-. reflexivity.
    + destruct (len buf =? 0); discriminate.
  - intros H. injection H as <-. reflexivity.
Qed.

Lemma follows_step (step : string) (err : error) :
  host_table err = Internal ->
  follows_host_table (status.Errorf Internal step err).
Proof. intros H. right. exists err, step. rewrite H. reflexivity. Qed.

Lemma ReadFile_failure (root : string) (req : pb.ReadFileRequest) (fs : hostfs.t)
    (e : error) :
  FileServer.ReadFile root req fs = Err e -> follows_host_table e.
Proof.
  unfold FileServer.ReadFile. intros H.
  destruct (FileServer.resolve root (pb.rd_Path req)) as [abs|e0] eqn:R;
    [|injection H as <-; eapply follows_resolver, R].
  destruct (hostfs.Open fs abs) as [f|e0];
    [|injection H as <-; apply follows_codec].
  assert (Hread : forall f',
    (let '(data, err) := hostfs.Read fs f' (FileServer.readLength req) in
     match err with
     | Some EOF => Ok {| pb.Data := data |}
     | Some e0 =>
         if len data =? 0 then Err (FileServer.osErrToStatus e0)
         else Ok {| pb.Data := data |}
     | None => Ok {| pb.Data := data |}
     end) = Err e -> follows_host_table e).
  { intros f'. destruct (hostfs.Read fs f' (FileServer.readLength req)) as [data [e0|]];
      [|discriminate].
    destruct e0; try discriminate;
      (destruct (len data =? 0); [|discriminate]);
      intros H'; injection H' as <-; apply follows_codec. }
  destruct (pb.rd_Offset req >? 0); [|exact (Hread _ H)].
  destruct (hostfs.Seek f (pb.rd_Offset req)) as [f'|e0] eqn:S; [exact (Hread _ H)|].
  injection H as <-. apply follows_step. exact (Seek_failure _ _ _ S).
Qed.

Lemma WriteFile_failure (root : string) (req : pb.WriteFileRequest) (fs : hostfs.t)
    (e : error) :
  fst (FileServer.WriteFile root req fs) = Err e -> follows_host_table e.
Proof.
  unfold FileServer.WriteFile. intros H.
  destruct (FileServer.resolve root (pb.wr_Path req)) as [abs|e0] eqn:R;
    [|injection H as <-; eapply follows_resolver, R].
  destruct (hostfs.OpenFile fs abs (FileServer.writeFlags req) 0) as [[f|e0] fs1];
    [|injection H as <-; apply follows_codec].
  assert (Hwrite : forall f',
    fst (match hostfs.Write fs1 f' (pb.wr_Data req) with
         | (Err err, fs2) => (Err (status.Errorf Internal "write: " err), fs2)
         | (Ok _, fs2) => (Ok tt, fs2)
         end) = Err e -> follows_host_table e).
  { intros f'. destruct (hostfs.Write fs1 f' (pb.wr_Data req)) as [[n|e0] fs2] eqn:W;
      [discriminate|].
    intros H'. injection H' as <-. apply follows_step.
    apply (Write_failure fs1 f' (pb.wr_Data req)). rewrite W. reflexivity. }
  destruct (pb.wr_Offset req >? 0); [|exact (Hwrite _ H)].
  destruct (hostfs.Seek f (pb.wr_Offset req)) as [f'|e0] eqn:S; [exact (Hwrite _ H)|].
  injection H as <-. apply follows_step. exact (Seek_failure _ _ _ S).
Qed.

Lemma Create_failure (root : string) (req : pb.CreateRequest) (fs : hostfs.t)
    (e : error) :
  fst (FileServer.Create root req fs) = Err e -> follows_host_table e.
Proof.
  unfold FileServer.Create. intros H.
  destruct (FileServer.resolve root (pb.cr_Path req)) as [abs|e0] eqn:R;
    [|injection H as <-; eapply follows_resolver, R].
  destruct (hostfs.OpenFile _ _ _ _) as [[f|e0] fs1]; [discriminate|].
  injection H as <-. apply follows_codec.
Qed.

Lemma Mkdir_failure (root : string) (req : pb.MkdirRequest) (fs : hostfs.t)
    (e : error) :
  fst (FileServer.Mkdir root req fs) = Err e -> follows_host_table e.
Proof.
  unfold FileServer.Mkdir. intros H.
  destruct (FileServer.resolve root (pb.mk_Path req)) as [abs|e0] eqn:R;
    [|injection H as <-; eapply follows_resolver, R].
  destruct (hostfs.Mkdir _ _ _) as [[e0|] fs1]; [|discriminate].
  injection H as <-. apply follows_codec.
Qed.

Lemma Chmod_failure (root : string) (req : pb.ChmodRequest) (fs : hostfs.t)
    (e : error) :
  fst (FileServer.Chmod root req fs) = Err e -> follows_host_table e.
Proof.
  unfold FileServer.Chmod. intros H.
  destruct (FileServer.resolve root (pb.ch_Path req)) as [abs|e0] eqn:R;
    [|injection H as <-; eapply follows_resolver, R].
  destruct (hostfs.Chmod _ _ _) as [[e0|] fs1]; [|discriminate].
  injection H as <-. apply follows_codec.
Qed.

Lemma Truncate_failure (root : string) (req : pb.TruncateRequest) (fs : hostfs.t)
    (e : error) :
  fst (FileServer.Truncate root req fs) = Err e -> follows_host_table e.
Proof.
  unfold FileServer.Truncate. intros H.
  destruct (FileServer.resolve root (pb.tr_Path req)) as [abs|e0] eqn:R;
    [|injection H as <-; eapply follows_resolver, R].
  destruct (hostfs.Truncate _ _ _) as [[e0|] fs1]; [|discriminate].
  injection H as <-. apply follows_codec.
Qed.

(** C2.  The error codec is the two tables.  Host: an os error that is
    not-found becomes NOT_FOUND, permission-denied PERMISSION_DENIED,
    already-exists ALREADY_EXISTS, any other INTERNAL, each carrying the
    text of the underlying error; a resolver failure is INVALID_ARGUMENT
    as it stands; and every failure of a handler is one of these.
    Client: NOT_FOUND becomes -ENOENT, PERMISSION_DENIED -EACCES,
    ALREADY_EXISTS -EEXIST, INVALID_ARGUMENT -EINVAL, DEADLINE_EXCEEDED
    and UNAVAILABLE -EIO, and every other error, status or not, -EIO. *)
Theorem error_codec_tables :
  (forall err : error,
     (os.IsNotExist err = true ->
        FileServer.osErrToStatus err = StatusError NotFound (Error err))
     /\ (os.IsPermission err = true ->
        FileServer.osErrToStatus err = StatusError PermissionDenied (Error err))
     /\ (os.IsExist err = true ->
        FileServer.osErrToStatus err = StatusError AlreadyExists (Error err))
     /\ (os.IsNotExist err = false -> os.IsPermission err = false ->
         os.IsExist err = false ->
        FileServer.osErrToStatus err = StatusError Internal (Error err)))
  /\ (forall err : error,
        FileServer.osErrToStatus err = StatusError (host_table err) (Error err))
  /\ (forall root rel e,
        FileServer.resolve root rel = Err e ->
        e = StatusError InvalidArgument "path escapes workspace root")
  /\ (forall root fs e,
        (forall req, FileServer.Stat root req fs = Err e -> follows_host_table e)
        /\ (forall req, FileServer.ReadFile root req fs = Err e -> follows_host_table e)
        /\ (forall req,
              fst (FileServer.WriteFile root req fs) = Err e -> follows_host_table e)
        /\ (forall req,
              fst (FileServer.Create root req fs) = Err e -> follows_host_table e)
        /\ (forall req,
              fst (FileServer.Mkdir root req fs) = Err e -> follows_host_table e)
        /\ (forall req,
              fst (FileServer.Chmod root req fs) = Err e -> follows_host_table e)
        /\ (forall req,
              fst (FileServer.Truncate root req fs) = Err e -> follows_host_table e))
  /\ (forall c msg, RemoteFS.errToFuse (Some (StatusError c msg)) = client_table c)
  /\ (forall msg, RemoteFS.errToFuse (Some (StatusError NotFound msg)) = - fuse.ENOENT)
  /\ (forall msg,
        RemoteFS.errToFuse (Some (StatusError PermissionDenied msg)) = - fuse.EACCES)
  /\ (forall msg,
        RemoteFS.errToFuse (Some (StatusError AlreadyExists msg)) = - fuse.EEXIST)
  /\ (forall msg,
        RemoteFS.errToFuse (Some (StatusError InvalidArgument msg)) = - fuse.EINVAL)
  /\ (forall msg,
        RemoteFS.errToFuse (Some (StatusError DeadlineExceeded msg)) = - fuse.EIO
        /\ RemoteFS.errToFuse (Some (StatusError Unavailable msg)) = - fuse.EIO)
  /\ (forall c msg,
        c <> NotFound -> c <> PermissionDenied -> c <> AlreadyExists ->
        c <> InvalidArgument ->
        RemoteFS.errToFuse (Some (StatusError c msg)) = - fuse.EIO)
  /\ (forall e, snd (status.FromError e) = false ->
        RemoteFS.errToFuse (Some e) = - fuse.EIO)
  /\ (fuse.ENOENT = 2 /\ fuse.EACCES = 13 /\ fuse.EEXIST = 17
      /\ fuse.EINVAL = 22 /\ fuse.EIO = 5).
Proof.
  split; [exact osErrToStatus_table|].
  split; [exact osErrToStatus_host_table|].
  split.
  { intros root rel e H. pose proof (resolve_cases root rel) as R.
    rewrite H in R. exact R. }
  split.
  { intros root fs e. split; [|split; [|split; [|split; [|split; [|split]]]]];
      intros req.
    - apply Stat_failure.
    - apply ReadFile_failure.
    - apply WriteFile_failure.
    - apply Create_failure.
    - apply Mkdir_failure.
    - apply Chmod_failure.
    - apply Truncate_failure. }
  split; [intros c msg; destruct c; reflexivity|].
  repeat split; try reflexivity.
  - intros c msg H1 H2 H3 H4. rewrite errToFuse_status.
    destruct c; congruence.
  - intros e H. unfold RemoteFS.errToFuse.
    destruct (status.FromError e) as [c b]. simpl in H. subst b. reflexivity.
Qed.

(** The tables at the errors the os package really returns: a failed open
    of a missing file, of a file without permission, a create over an
    existing file, a read of a directory; and what the client then hands
    to the kernel. *)
Lemma error_codec_tables_witness :
  FileServer.osErrToStatus (PathError "open" "/ws/a" (Errno syscall.ENOENT))
    = StatusError NotFound "open /ws/a: no such file or directory"
  /\ FileServer.osErrToStatus (PathError "open" "/ws/a" (Errno syscall.EACCES))
    = StatusError PermissionDenied "open /ws/a: permission denied"
  /\ FileServer.osErrToStatus (PathError "open" "/ws/a" (Errno syscall.EEXIST))
    = StatusError AlreadyExists "open /ws/a: file exists"
  /\ FileServer.osErrToStatus (PathError "read" "/ws/d" (Errno syscall.EISDIR))
    = StatusError Internal "read /ws/d: is a directory"
  /\ RemoteFS.errToFuse (Some (ErrorString "connection reset")) = -5
  /\ RemoteFS.errToFuse (Some (StatusError Internal "boom")) = -5
  /\ follows_host_table
       (StatusError NotFound "lstat /ws/nope.txt: no such file or directory").
Proof.
  destruct error_codec_tables
    as (H & _ & _ & Hh & _ & _ & _ & _ & _ & _ & Hc & Hn & _).
  split; [apply (H (PathError "open" "/ws/a" (Errno syscall.ENOENT))); reflexivity|].
  split; [apply (H (PathError "open" "/ws/a" (Errno syscall.EACCES))); reflexivity|].
  split; [apply (H (PathError "open" "/ws/a" (Errno syscall.EEXIST))); reflexivity|].
  split; [apply (H (PathError "read" "/ws/d" (Errno syscall.EISDIR))); reflexivity|].
  split; [apply (Hn (ErrorString "connection reset")); reflexivity|].
  split; [apply (Hc Internal "boom"); discriminate|].
  destruct (Hh "/ws" sample_fs
              (StatusError NotFound "lstat /ws/nope.txt: no such file or directory"))
    as (Hstat & _).
  apply (Hstat (pb.mkStatRequest "nope.txt")). vm_compute. reflexivity.
Defined.

(* --------------------------------------------------------------------- *)
(*  The metadata codec                                                     *)
(* --------------------------------------------------------------------- *)

Lemma all_from_spec (P : Z -> bool) (fuel : nat) (z : Z) :
  all_from P fuel z = true ->
  forall m, z <= m < z + Z.of_nat fuel -> P m = true.
Proof.
  revert z; induction fuel as [|fuel IH]; intros z H m Hm; [lia|].
  simpl in H. apply andb_true_iff in H. destruct H as [Hz Hrest].
  destruct (Z.eq_dec m z) as [->|Hne]; [exact Hz|].
  apply (IH (z + 1) Hrest). lia.
Qed.

Lemma mode_survives_all :
  all_from mode_survives (Z.to_nat 65536) 0 = true.
Proof. vm_compute. reflexivity. Qed.

(** Every 16-bit st_mode with one of the seven file types comes back
    unchanged from Go's FileMode through goModeToUnix: type bits, setuid,
    setgid, sticky and permission bits. *)
Lemma goModeToUnix_fileModeFromSys (st_mode : Z) :
  0 <= st_mode < 65536 -> valid_type st_mode = true ->
  FileServer.goModeToUnix (os.fileModeFromSys st_mode) = st_mode.
Proof.
  intros Hr Hv.
  pose proof (all_from_spec _ _ _ mode_survives_all st_mode) as H.
  rewrite Z2Nat.id in H by lia.
  specialize (H Hr). unfold mode_survives in H.
  rewrite Hv in H. simpl in H. apply Z.eqb_eq. exact H.
Qed.

(** What the wire codec followed by fillStat keeps of a file info: the
    mode as goModeToUnix encodes it, the size, the modification time in
    whole seconds on all four time stamps, the link count, the block size,
    and the block count while size + 511 stays within int64. *)
Lemma fillStat_fileInfoToProto (uid gid : Z) (stat : fuse.Stat_t) (info : FileInfo) :
  let st := RemoteFS.fillStat uid gid stat (FileServer.fileInfoToProto info) in
  fuse.Mode st = FileServer.goModeToUnix (fi_Mode info)
  /\ fuse.Size st = fi_Size info
  /\ fuse.Mtim st = fuse.mkTimespec (Unix (fi_ModTime info)) 0
  /\ fuse.Atim st = fuse.Mtim st
  /\ fuse.Ctim st = fuse.Mtim st
  /\ fuse.Birthtim st = fuse.Mtim st
  /\ fuse.Nlink st = (if fi_IsDir info then 2 else 1)
  /\ fuse.Blksize st = 4096
  /\ (0 < fi_Size info <= 2 ^ 63 - 512 ->
      is_ceil_div (fi_Size info) 512 (fuse.Blocks st))
  /\ (fi_Size info <= 0 -> fuse.Blocks st = fuse.Blocks stat).
Proof.
  cbv zeta. unfold RemoteFS.fillStat, FileServer.fileInfoToProto. simpl.
  repeat (split; [reflexivity|]).
  split.
  - intros H. destruct (fi_Size info >? 0) eqn:E; [|lia].
    unfold wrap64, is_ceil_div.
    rewrite Z.mod_small by lia.
    replace (fi_Size info + 511 + 2 ^ 63 - 2 ^ 63) with (fi_Size info + 511) by lia.
    rewrite Z.quot_div_nonneg by lia.
    pose proof (Z.div_mod (fi_Size info + 511) 512 ltac:(lia)).
    pose proof (Z.mod_pos_bound (fi_Size info + 511) 512 ltac:(lia)).
    lia.
  - intros H. destruct (fi_Size info >? 0) eqn:E; [lia|reflexivity].
Qed.

(** A file info obtained from lstat(2) keeps its whole 16-bit mode, hence
    its type bits, through FileMode, the wire form and fillStat. *)
Lemma fillStat_keeps_st_mode (uid gid : Z) (stat : fuse.Stat_t)
    (name : string) (size : Z) (mtime : Time) (st_mode : Z) :
  0 <= st_mode < 65536 -> valid_type st_mode = true ->
  let info := {| fi_Name := name; fi_Size := size;
                 fi_Mode := os.fileModeFromSys st_mode; fi_ModTime := mtime |} in
  fuse.Mode (RemoteFS.fillStat uid gid stat (FileServer.fileInfoToProto info))
  = st_mode.
Proof.
  intros Hr Hv. simpl. apply goModeToUnix_fileModeFromSys; assumption.
Qed.

(** C3 (the block count).  For a file of 2^63 - 1 bytes the sum
    size + 511 wraps around in int64, and fillStat reports a negative
    number of blocks instead of size / 512 rounded up; the other fields
    are as the codec promises. *)
Theorem fillStat_blocks_overflow :
  let st := RemoteFS.fillStat 1000 1000 fuse.Stat_zero
              (FileServer.fileInfoToProto huge_file) in
  fuse.Blocks st = -18014398509481983
  /\ ~ is_ceil_div (fi_Size huge_file) 512 (fuse.Blocks st)
  /\ is_ceil_div (fi_Size huge_file) 512 18014398509481984
  /\ fuse.Size st = fi_Size huge_file
  /\ Z.land (fuse.Mode st) syscall.S_IFMT = syscall.S_IFREG.
Proof.
  cbv zeta. split; [vm_compute; reflexivity|].
  split.
  - replace (fuse.Blocks _) with (-18014398509481983) by (vm_compute; reflexivity).
    unfold is_ceil_div, huge_file; simpl fi_Size. lia.
  - split; [unfold is_ceil_div, huge_file; simpl fi_Size; lia|].
    split; vm_compute; reflexivity.
Qed.

(* --------------------------------------------------------------------- *)
(*  statfs                                                                 *)
(* --------------------------------------------------------------------- *)

(** C8 as stated fails: the total is 2^30 blocks of 4096 bytes, which is
    4 TiB and not about 1 TiB. *)
Lemma Statfs_capacity_not_1TiB :
  ~ (forall path stat,
       fst (RemoteFS.Statfs path stat) = 0
       /\ fuse.Statfs.Bsize (snd (RemoteFS.Statfs path stat)) = 4096
       /\ fuse.Statfs.Frsize (snd (RemoteFS.Statfs path stat)) = 4096
       /\ fuse.Statfs.Namemax (snd (RemoteFS.Statfs path stat)) = 255
       /\ about_one_TiB (capacity (snd (RemoteFS.Statfs path stat)))).
Proof.
  intros H. destruct (H "/" Statfs_zero) as (_ & _ & _ & _ & Hc).
  unfold about_one_TiB, capacity, TiB in Hc. simpl in Hc.
  change (Z.shiftl 1 30) with 1073741824 in Hc. lia.
Qed.

(** C8, amended.  For every path, statfs succeeds and returns
    bsize = frsize = 4096, namemax = 255 and 2^30 total blocks, that is a
    total capacity of 4 TiB. *)
Theorem Statfs_constants (path : string) (stat : fuse.Statfs.Statfs_t) :
  let '(rc, s) := RemoteFS.Statfs path stat in
  rc = 0
  /\ fuse.Statfs.Bsize s = 4096
  /\ fuse.Statfs.Frsize s = 4096
  /\ fuse.Statfs.Namemax s = 255
  /\ fuse.Statfs.Blocks s = 2 ^ 30
  /\ capacity s = 4 * TiB.
Proof. simpl. repeat split. Qed.

(* --------------------------------------------------------------------- *)
(*  The host file system                                                   *)
(* --------------------------------------------------------------------- *)

Lemma land_lor_zero_l (m a b : Z) : Z.land m (Z.lor a b) = 0 -> Z.land m a = 0.
Proof.
  rewrite Z.land_lor_distr_r. intros H. apply Z.lor_eq_0_iff in H. tauto.
Qed.

Lemma regular_not_dir (i : hostfs.inode) :
  hostfs.is_regular i = true -> hostfs.is_dir i = false.
Proof.
  unfold hostfs.is_regular, hostfs.is_dir, os.IsDir, hostfs.ModeType.
  intros H. apply Z.eqb_eq in H. apply land_lor_zero_l in H.
  rewrite H. reflexivity.
Qed.

Lemma readLength_range (req : pb.ReadFileRequest) :
  1 <= FileServer.readLength req <= 2 ^ 20.
Proof.
  unfold FileServer.readLength, FileServer.maxReadSize.
  change (Z.shiftl 1 20) with (2 ^ 20).
  destruct (pb.rd_Length req <=? 0) eqn:E1; simpl; [lia|].
  destruct (pb.rd_Length req >? 2 ^ 20) eqn:E2; lia.
Qed.

Lemma Open_missing (fs : hostfs.t) (name : string) :
  hostfs.files fs !! name = None ->
  hostfs.Open fs name = Err (PathError "open" name (Errno syscall.ENOENT)).
Proof. intros H. unfold hostfs.Open, hostfs.OpenFile. rewrite H. reflexivity. Qed.

Lemma Open_readable (fs : hostfs.t) (name : string) (i : hostfs.inode) :
  hostfs.files fs !! name = Some i -> hostfs.can_read i = true ->
  hostfs.Open fs name = Ok (hostfs.mkFile name 0).
Proof.
  intros H R. unfold hostfs.Open, hostfs.OpenFile. rewrite H.
  change (hostfs.has_flag os.O_RDONLY os.O_CREATE) with false.
  change (hostfs.has_flag os.O_RDONLY os.O_WRONLY) with false.
  change (hostfs.has_flag os.O_RDONLY os.O_TRUNC) with false.
  rewrite R. reflexivity.
Qed.

(** A read never returns more bytes than the buffer holds. *)
Lemma Read_at_most (fs : hostfs.t) (f : hostfs.File) (n : Z) :
  0 <= n -> len (fst (hostfs.Read fs f n)) <= n.
Proof.
  intros Hn. unfold hostfs.Read, len.
  destruct (hostfs.files fs !! hostfs.f_name f) as [i|]; simpl; [|lia].
  destruct (hostfs.is_dir i); simpl; [lia|].
  destruct (negb (hostfs.is_regular i)); simpl; [lia|].
  destruct (n <=? 0); simpl; [lia|].
  set (chunk := firstn _ _).
  assert (Hc : (List.length chunk <= Z.to_nat n)%nat) by apply firstn_le_length.
  destruct chunk; simpl in *; lia.
Qed.

(** What ReadFile returns on a readable regular file: the bytes from the
    offset on, as many as the buffer holds. *)
Lemma ReadFile_regular (root : string) (req : pb.ReadFileRequest)
    (fs : hostfs.t) (abs : string) (i : hostfs.inode) :
  FileServer.resolve root (pb.rd_Path req) = Ok abs ->
  hostfs.files fs !! abs = Some i ->
  hostfs.is_regular i = true -> hostfs.can_read i = true ->
  FileServer.ReadFile root req fs =
  Ok {| pb.Data := firstn (Z.to_nat (FileServer.readLength req))
                     (skipn (Z.to_nat (pb.rd_Offset req)) (hostfs.i_data i)) |}.
Proof.
  intros Hres Hi Hreg Hrd. unfold FileServer.ReadFile.
  rewrite Hres, (Open_readable _ _ _ Hi Hrd).
  pose proof (readLength_range req) as HL.
  assert (Hread : forall off, Z.to_nat off = Z.to_nat (pb.rd_Offset req) ->
    hostfs.Read fs (hostfs.mkFile abs off) (FileServer.readLength req) =
    let chunk := firstn (Z.to_nat (FileServer.readLength req))
                   (skipn (Z.to_nat (pb.rd_Offset req)) (hostfs.i_data i)) in
    (chunk, match chunk with [] => Some EOF | _ => None end)).
  { intros off Ho. unfold hostfs.Read. simpl hostfs.f_name. rewrite Hi.
    rewrite (regular_not_dir _ Hreg), Hreg. simpl.
    destruct (FileServer.readLength req <=? 0) eqn:E; [lia|].
    simpl hostfs.f_off. rewrite Ho.
    destruct (firstn _ _); reflexivity. }
  destruct (pb.rd_Offset req >? 0) eqn:Eo.
  - unfold hostfs.Seek.
    destruct (pb.rd_Offset req <? 0) eqn:En; [lia|].
    simpl hostfs.f_name. rewrite (Hread _ eq_refl). cbv zeta.
    destruct (firstn _ _); reflexivity.
  - rewrite (Hread 0) by lia. cbv zeta.
    destruct (firstn _ _); reflexivity.
Qed.

(** C7.  A requested length that is not positive or exceeds 1 MiB makes
    the read length exactly 1 MiB; any other requested length is the read
    length; the response never carries more bytes than the read length,
    and on a readable regular file it carries exactly the bytes from the
    offset on, up to the read length. *)
Theorem ReadFile_length_clamped (root : string) (req : pb.ReadFileRequest)
    (fs : hostfs.t) :
  (pb.rd_Length req <= 0 \/ pb.rd_Length req > 2 ^ 20 ->
     FileServer.readLength req = 2 ^ 20)
  /\ (0 < pb.rd_Length req <= 2 ^ 20 ->
     FileServer.readLength req = pb.rd_Length req)
  /\ match FileServer.ReadFile root req fs with
     | Ok resp => len (pb.Data resp) <= FileServer.readLength req
     | Err _ => True
     end
  /\ (forall abs i,
        FileServer.resolve root (pb.rd_Path req) = Ok abs ->
        hostfs.files fs !! abs = Some i ->
        hostfs.is_regular i = true -> hostfs.can_read i = true ->
        FileServer.ReadFile root req fs =
        Ok {| pb.Data := firstn (Z.to_nat (FileServer.readLength req))
                           (skipn (Z.to_nat (pb.rd_Offset req)) (hostfs.i_data i)) |}).
Proof.
  split; [|split; [|split]].
  - unfold FileServer.readLength, FileServer.maxReadSize.
    change (Z.shiftl 1 20) with (2 ^ 20).
    intros [H|H].
    + destruct (pb.rd_Length req <=? 0) eqn:E; [reflexivity|lia].
    + destruct (pb.rd_Length req <=? 0); [reflexivity|]. simpl.
      destruct (pb.rd_Length req >? 2 ^ 20) eqn:E; [reflexivity|lia].
  - unfold FileServer.readLength, FileServer.maxReadSize.
    change (Z.shiftl 1 20) with (2 ^ 20). intros H.
    destruct (pb.rd_Length req <=? 0) eqn:E; [lia|]. simpl.
    destruct (pb.rd_Length req >? 2 ^ 20) eqn:E'; [lia|reflexivity].
  - pose proof (readLength_range req) as HL.
    unfold FileServer.ReadFile.
    destruct (FileServer.resolve _ _) as [abs|e]; [|exact I].
    destruct (hostfs.Open fs abs) as [f|e]; [|exact I].
    assert (Hin : forall f',
      match
        (let '(data, err) := hostfs.Read fs f' (FileServer.readLength req) in
         match err with
         | Some EOF => Ok {| pb.Data := data |}
         | Some e =>
             if len data =? 0 then Err (FileServer.osErrToStatus e)
             else Ok {| pb.Data := data |}
         | None => Ok {| pb.Data := data |}
         end)
      with
      | Ok resp => len (pb.Data resp) <= FileServer.readLength req
      | Err _ => True
      end).
    { intros f'.
      pose proof (Read_at_most fs f' (FileServer.readLength req) ltac:(lia)) as HR.
      destruct (hostfs.Read fs f' (FileServer.readLength req)) as [data err].
      simpl in HR.
      destruct err as [e|]; [|exact HR].
      destruct e; try exact HR;
        destruct (len data =? 0); (exact I || exact HR). }
    destruct (pb.rd_Offset req >? 0); [|apply Hin].
    destruct (hostfs.Seek f (pb.rd_Offset req)) as [f'|e]; [apply Hin|exact I].
  - intros abs i. apply ReadFile_regular.
Qed.

(** The read length at a request of length 0 and at one of 4 bytes, on the
    test file of the server's tests. *)
Lemma ReadFile_length_clamped_witness :
  FileServer.readLength (pb.mkReadFileRequest "test.txt" 0 0) = 2 ^ 20
  /\ FileServer.readLength (pb.mkReadFileRequest "test.txt" 0 4) = 4
  /\ FileServer.ReadFile "/ws" (pb.mkReadFileRequest "test.txt" 0 0) sample_fs
     = Ok {| pb.Data := list_byte_of_string "initial" |}
  /\ FileServer.ReadFile "/ws" (pb.mkReadFileRequest "test.txt" 2 4) sample_fs
     = Ok {| pb.Data := list_byte_of_string "itia" |}.
Proof.
  split.
  { destruct (ReadFile_length_clamped "/ws" (pb.mkReadFileRequest "test.txt" 0 0)
                sample_fs) as (H & _).
    apply H. left. simpl. lia. }
  split.
  { destruct (ReadFile_length_clamped "/ws" (pb.mkReadFileRequest "test.txt" 0 4)
                sample_fs) as (_ & H & _).
    apply H. simpl. lia. }
  split.
  - destruct (ReadFile_length_clamped "/ws" (pb.mkReadFileRequest "test.txt" 0 0)
                sample_fs) as (_ & _ & _ & H).
    etransitivity;
      [apply (H "/ws/test.txt" (regular_file (oct "644") "initial"))|];
      vm_compute; reflexivity.
  - destruct (ReadFile_length_clamped "/ws" (pb.mkReadFileRequest "test.txt" 2 4)
                sample_fs) as (_ & _ & _ & H).
    etransitivity;
      [apply (H "/ws/test.txt" (regular_file (oct "644") "initial"))|];
      vm_compute; reflexivity.
Defined.



(* --------------------------------------------------------------------- *)
(*  WriteFile                                                              *)
(* --------------------------------------------------------------------- *)

Lemma writeFlags_no_create (req : pb.WriteFileRequest) :
  hostfs.has_flag (FileServer.writeFlags req) os.O_CREATE = false
  /\ hostfs.has_flag (FileServer.writeFlags req) os.O_EXCL = false
  /\ hostfs.has_flag (FileServer.writeFlags req) os.O_WRONLY = true
  /\ hostfs.has_flag (FileServer.writeFlags req) os.O_TRUNC = pb.wr_Truncate req.
Proof.
  unfold FileServer.writeFlags. destruct (pb.wr_Truncate req); repeat split.
Qed.




(** Create first, then write: the file exists and holds the data. *)
Example Create_then_WriteFile :
  let fs1 := snd (FileServer.Create "/ws" (pb.mkCreateRequest "new.txt" 0) sample_fs) in
  let r := FileServer.WriteFile "/ws"
             (pb.mkWriteFileRequest "new.txt" (list_byte_of_string "data") 0 false)
             fs1 in
  fst r = Ok tt
  /\ (hostfs.i_data <$> hostfs.files (snd r) !! "/ws/new.txt")
     = Some (list_byte_of_string "data")
  /\ (hostfs.i_mode <$> hostfs.files (snd r) !! "/ws/new.txt") = Some (oct "644").
Proof. vm_compute. repeat split. Qed.

Lemma write_at_prefix_length (data : list Byte.byte) (off : nat) :
  List.length (firstn off data ++ repeat Byte.x00 (off - List.length data)) = off.
Proof. rewrite length_app, length_take, repeat_length. lia. Qed.

Lemma write_at_length (data buf : list Byte.byte) (off : nat) :
  List.length (hostfs.write_at data off buf)
  = Nat.max (List.length data) (off + List.length buf).
Proof.
  unfold hostfs.write_at.
  rewrite !length_app, length_take, repeat_length, length_drop. lia.
Qed.

Lemma write_at_before (data buf : list Byte.byte) (off k : nat) (b : Byte.byte) :
  (k < off)%nat -> data !! k = Some b ->
  hostfs.write_at data off buf !! k = Some b.
Proof.
  intros Hk Hd. unfold hostfs.write_at.
  apply lookup_app_l_Some. rewrite lookup_take_lt by exact Hk. exact Hd.
Qed.

Lemma write_at_after (data buf : list Byte.byte) (off k : nat) :
  (off + List.length buf <= k)%nat ->
  hostfs.write_at data off buf !! k = data !! k.
Proof.
  intros Hk. unfold hostfs.write_at.
  rewrite app_assoc.
  rewrite lookup_app_r by (rewrite write_at_prefix_length; lia).
  rewrite write_at_prefix_length.
  rewrite lookup_app_r by lia.
  rewrite lookup_drop. f_equal. lia.
Qed.

Lemma write_at_written (data buf : list Byte.byte) (off j : nat) (b : Byte.byte) :
  buf !! j = Some b -> hostfs.write_at data off buf !! (off + j)%nat = Some b.
Proof.
  intros Hj. unfold hostfs.write_at.
  rewrite app_assoc.
  rewrite lookup_app_r by (rewrite write_at_prefix_length; lia).
  rewrite write_at_prefix_length.
  replace (off + j - off)%nat with j by lia.
  apply lookup_app_l_Some. exact Hj.
Qed.

Lemma errToFuse_negative (e : error) : RemoteFS.errToFuse (Some e) < 0.
Proof.
  unfold RemoteFS.errToFuse.
  destruct (status.FromError e) as [c [|]]; [destruct c|]; reflexivity.
Qed.

(** The whole effect of a WriteFile without truncate: either the host is
    left as it was, or the request succeeded on a writable regular file
    whose content is overwritten in place from the offset on. *)
Lemma WriteFile_in_place (root : string) (req : pb.WriteFileRequest)
    (fs : hostfs.t) :
  pb.wr_Truncate req = false ->
  (snd (FileServer.WriteFile root req fs) = fs
   /\ (fst (FileServer.WriteFile root req fs) = Ok tt -> pb.wr_Data req = []))
  \/ exists abs i,
       FileServer.resolve root (pb.wr_Path req) = Ok abs
       /\ hostfs.files fs !! abs = Some i
       /\ FileServer.WriteFile root req fs =
          (Ok tt,
           {| hostfs.files :=
                <[abs := {| hostfs.i_mode := hostfs.i_mode i;
                            hostfs.i_mtime := hostfs.clock fs;
                            hostfs.i_data :=
                              hostfs.write_at (hostfs.i_data i)
                                (Z.to_nat (pb.wr_Offset req)) (pb.wr_Data req) |}]>
                (hostfs.files fs);
              hostfs.clock := hostfs.clock fs |}).
Proof.
  intros Htr. unfold FileServer.WriteFile.
  destruct (FileServer.resolve root (pb.wr_Path req)) as [abs|e];
    [|left; split; [reflexivity|discriminate]].
  destruct (writeFlags_no_create req) as (Hc & He & Hw & Ht).
  rewrite Htr in Ht.
  unfold hostfs.OpenFile. rewrite Hc, Hw, Ht. simpl.
  destruct (hostfs.files fs !! abs) as [i|] eqn:Hi;
    [|left; split; [reflexivity|discriminate]].
  destruct (hostfs.is_dir i); [left; split; [reflexivity|discriminate]|].
  destruct (negb (hostfs.can_write i));
    [left; split; [reflexivity|discriminate]|].
  assert (Hwrite : forall off, Z.to_nat off = Z.to_nat (pb.wr_Offset req) ->
    let r := match hostfs.Write fs (hostfs.mkFile abs off) (pb.wr_Data req) with
             | (Err err, fs1) => (Err (status.Errorf Internal "write: " err), fs1)
             | (Ok _, fs1) => (Ok tt, fs1)
             end in
    (snd r = fs /\ (fst r = Ok tt -> pb.wr_Data req = []))
    \/ r = (Ok tt,
            {| hostfs.files :=
                 <[abs := {| hostfs.i_mode := hostfs.i_mode i;
                             hostfs.i_mtime := hostfs.clock fs;
                             hostfs.i_data :=
                               hostfs.write_at (hostfs.i_data i)
                                 (Z.to_nat (pb.wr_Offset req)) (pb.wr_Data req) |}]>
                 (hostfs.files fs);
               hostfs.clock := hostfs.clock fs |})).
  { intros off Ho. cbv zeta. unfold hostfs.Write. simpl hostfs.f_name.
    rewrite Hi.
    destruct (negb (hostfs.is_regular i));
      [left; split; [reflexivity|discriminate]|].
    destruct (len (pb.wr_Data req) =? 0) eqn:El.
    - left. split; [reflexivity|]. intros _.
      apply Z.eqb_eq in El. unfold len in El.
      destruct (pb.wr_Data req); [reflexivity|simpl in El; lia].
    - right. simpl hostfs.f_off. rewrite Ho. reflexivity. }
  destruct (pb.wr_Offset req >? 0) eqn:Eo.
  - unfold hostfs.Seek. destruct (pb.wr_Offset req <? 0) eqn:En; [lia|].
    simpl hostfs.f_name.
    destruct (Hwrite (pb.wr_Offset req) eq_refl) as [H|H]; [left; exact H|].
    right. exists abs, i. split; [reflexivity|split; [exact Hi|exact H]].
  - destruct (Hwrite 0 ltac:(lia)) as [H|H]; [left; exact H|].
    right. exists abs, i. split; [reflexivity|split; [exact Hi|exact H]].
Qed.

Lemma Write_connected (root path : string) (buff : list Byte.byte)
    (ofst fh : Z) (fs : hostfs.t) :
  RemoteFS.Write (connected root) path buff ofst fh fs =
  match FileServer.WriteFile root (RemoteFS.WriteRequest path buff ofst) fs with
  | (Err err, s) => (RemoteFS.errToFuse (Some err), s)
  | (Ok _, s) => (len buff, s)
  end.
Proof. reflexivity. Qed.

(** The proxy's truncate sets the length of a writable regular file to
    the size asked for, whatever it was. *)
Lemma Truncate_sets_length (root path : string) (size fh : Z) (fs : hostfs.t)
    (abs : string) (i : hostfs.inode) :
  FileServer.resolve root path = Ok abs ->
  hostfs.files fs !! abs = Some i ->
  hostfs.is_regular i = true -> hostfs.can_write i = true -> 0 <= size ->
  let r := RemoteFS.Truncate (connected root) path size fh fs in
  fst r = 0
  /\ exists i', hostfs.files (snd r) !! abs = Some i'
       /\ len (hostfs.i_data i') = size
       /\ hostfs.i_data i' =
          firstn (Z.to_nat size) (hostfs.i_data i)
            ++ repeat Byte.x00 (Z.to_nat size - List.length (hostfs.i_data i)).
Proof.
  intros Hres Hi Hreg Hw Hs. cbv zeta.
  unfold RemoteFS.Truncate, connected, rpc_Truncate, FileServer.Truncate.
  simpl pb.tr_Path. simpl pb.tr_Size. rewrite Hres.
  unfold hostfs.Truncate. rewrite Hi, (regular_not_dir _ Hreg), Hreg, Hw.
  simpl negb. cbv iota.
  destruct (size <? 0) eqn:E; [lia|]. simpl.
  split; [reflexivity|].
  eexists. split; [apply lookup_insert_eq|]. simpl. split; [|reflexivity].
  unfold len. rewrite length_app, length_take, repeat_length. lia.
Qed.

(** C10.  The one request the proxy's write issues is a WriteFile with
    truncate = false (and the path, data and offset it was given).
    Hence, for an offset that is not negative, a write leaves every path
    present and of the same mode, creates no path, never makes a file
    shorter, and leaves every byte outside [ofst, ofst + len(buf))
    unchanged; when it succeeds the bytes of buf stand at ofst and the file
    has grown to ofst + len(buf) if it was shorter.  Making a file shorter
    is what the separate truncate operation does. *)
Theorem Write_never_truncates (root path : string) (buff : list Byte.byte)
    (ofst fh : Z) (fs : hostfs.t) :
  0 <= ofst ->
  let r := RemoteFS.Write (connected root) path buff ofst fh fs in
  (forall log,
     exists req,
       snd (RemoteFS.Write recorder path buff ofst fh log) = log ++ [req]
       /\ pb.wr_Truncate req = false /\ pb.wr_Path req = path
       /\ pb.wr_Data req = buff /\ pb.wr_Offset req = ofst)
  /\ (forall a i, hostfs.files fs !! a = Some i ->
        exists i', hostfs.files (snd r) !! a = Some i'
          /\ hostfs.i_mode i' = hostfs.i_mode i
          /\ len (hostfs.i_data i) <= len (hostfs.i_data i')
          /\ unchanged_outside ofst (len buff) (hostfs.i_data i) (hostfs.i_data i'))
  /\ (forall a, hostfs.files fs !! a = None -> hostfs.files (snd r) !! a = None)
  /\ (fst r = len buff ->
      forall abs i, FileServer.resolve root path = Ok abs ->
        hostfs.files fs !! abs = Some i ->
        exists i', hostfs.files (snd r) !! abs = Some i'
          /\ written_at ofst buff (hostfs.i_data i')
          /\ (buff <> [] ->
              len (hostfs.i_data i') = Z.max (len (hostfs.i_data i)) (ofst + len buff)))
  /\ (forall size abs i,
        FileServer.resolve root path = Ok abs ->
        hostfs.files fs !! abs = Some i ->
        hostfs.is_regular i = true -> hostfs.can_write i = true -> 0 <= size ->
        let r' := RemoteFS.Truncate (connected root) path size fh fs in
        fst r' = 0
        /\ exists i', hostfs.files (snd r') !! abs = Some i'
             /\ len (hostfs.i_data i') = size).
Proof.
  intros Hofst. cbv zeta. rewrite Write_connected.
  set (req := RemoteFS.WriteRequest path buff ofst).
  assert (Hsame : forall l : list Byte.byte, unchanged_outside ofst (len buff) l l)
    by (intros l k b Hk _; exact Hk).
  split.
  { intros log. exists req. repeat split. }
  assert (Hsnd : forall (x : result unit * hostfs.t),
            snd (match x with
                 | (Err err, s) => (RemoteFS.errToFuse (Some err), s)
                 | (Ok _, s) => (len buff, s)
                 end) = snd x)
    by (intros [[?|?] ?]; reflexivity).
  rewrite Hsnd.
  destruct (WriteFile_in_place root req fs eq_refl) as [[Hfs Hok]|(abs & i & Hres & Hi & HW)].
  - (* the host is unchanged *)
    rewrite Hfs. split; [|split; [|split]].
    + intros a i Ha. exists i.
      split; [exact Ha|split; [reflexivity|split; [apply Z.le_refl|apply Hsame]]].
    + intros a Ha. exact Ha.
    + intros Hrc abs i Hres Hi.
      assert (Hnil : buff = []).
      { destruct (FileServer.WriteFile root req fs) as [[u|e] s] eqn:EW.
        - apply Hok. destruct u. reflexivity.
        - cbv beta iota delta [fst] in Hrc.
          pose proof (errToFuse_negative e). unfold len in Hrc. lia. }
      exists i. split; [exact Hi|]. subst buff.
      split; [intros j b Hj; discriminate Hj|congruence].
    + intros size abs i Hres Hi Hreg Hw Hs.
      destruct (Truncate_sets_length root path size fh fs abs i Hres Hi Hreg Hw Hs)
        as (H0 & i' & Hi' & Hl & _).
      split; [exact H0|]. exists i'. split; assumption.
  - (* the file at abs is overwritten in place *)
    rewrite HW. cbn [snd fst hostfs.files].
    change (pb.wr_Offset req) with ofst. change (pb.wr_Data req) with buff.
    change (pb.wr_Path req) with path in Hres.
    split; [|split; [|split]].
    + intros a i0 Ha. destruct (decide (abs = a)) as [<-|Hne].
      * rewrite Hi in Ha. injection Ha as <-.
        eexists. split; [apply lookup_insert_eq|]. simpl.
        split; [reflexivity|]. split.
        -- unfold len. rewrite write_at_length. lia.
        -- intros k b Hk [Hlt|Hge].
           ++ apply write_at_before; [lia|exact Hk].
           ++ rewrite write_at_after; [exact Hk|unfold len in Hge; lia].
      * exists i0. rewrite lookup_insert_ne by exact Hne.
        split; [exact Ha|split; [reflexivity|split; [apply Z.le_refl|apply Hsame]]].
    + intros a Ha. destruct (decide (abs = a)) as [<-|Hne]; [congruence|].
      rewrite lookup_insert_ne by exact Hne. exact Ha.
    + intros _ abs' i0 Hres' Hi'.
      rewrite Hres in Hres'. injection Hres' as <-.
      rewrite Hi in Hi'. injection Hi' as <-.
      eexists. split; [apply lookup_insert_eq|]. simpl. split.
      * intros j b Hj. apply write_at_written. exact Hj.
      * intros _. unfold len. rewrite write_at_length. lia.
    + intros size abs' i0 Hres' Hi' Hreg Hw Hs.
      destruct (Truncate_sets_length root path size fh fs abs' i0 Hres' Hi' Hreg Hw Hs)
        as (H0 & i' & Hi'' & Hl & _).
      split; [exact H0|]. exists i'. split; assumption.
Qed.

(** Writing "XY" at offset 2 of test.txt ("initial") gives "inXYial";
    writing it at offset 9 grows the file, with zero bytes in the gap. *)
Lemma Write_never_truncates_witness :
  0 <= 2
  /\ (exists i',
        hostfs.files
          (snd (RemoteFS.Write (connected "/ws") "test.txt"
                  (list_byte_of_string "XY") 2 1 sample_fs)) !! "/ws/test.txt"
        = Some i'
        /\ hostfs.i_mode i' = oct "644"
        /\ 7 <= len (hostfs.i_data i')
        /\ unchanged_outside 2 2 (list_byte_of_string "initial") (hostfs.i_data i'))
  /\ (hostfs.i_data <$>
        hostfs.files
          (snd (RemoteFS.Write (connected "/ws") "test.txt"
                  (list_byte_of_string "XY") 2 1 sample_fs)) !! "/ws/test.txt")
     = Some (list_byte_of_string "inXYial")
  /\ (len <$> (hostfs.i_data <$>
        hostfs.files
          (snd (RemoteFS.Write (connected "/ws") "test.txt"
                  (list_byte_of_string "XY") 9 1 sample_fs)) !! "/ws/test.txt"))
     = Some 11.
Proof.
  split; [lia|]. split; [|split; vm_compute; reflexivity].
  destruct (Write_never_truncates "/ws" "test.txt" (list_byte_of_string "XY")
              2 1 sample_fs ltac:(lia)) as (_ & H & _).
  apply (H "/ws/test.txt" (regular_file (oct "644") "initial")).
  vm_compute. reflexivity.
Defined.

(* --------------------------------------------------------------------- *)
(*  The debouncer                                                          *)
(* --------------------------------------------------------------------- *)

Lemma last_cons_default {A} (l : list A) (a d : A) :
  List.last (a :: l) d = List.last l a.
Proof.
  revert a d; induction l as [|b l IH]; intros a d; [reflexivity|].
  change (List.last (a :: b :: l) d) with (List.last (b :: l) d).
  rewrite !IH. reflexivity.
Qed.

Section DebouncerFacts.
Import Debouncer.

Lemma spent_not_due (now : Z) (tm : Timer) : spent tm -> is_due now tm = false.
Proof. unfold spent, is_due. destruct (state tm); congruence. Qed.

Lemma filter_spent (now : Z) (l : list Timer) :
  Forall spent l -> List.filter (is_due now) l = [].
Proof.
  induction 1 as [|tm l Htm _ IH]; [reflexivity|].
  simpl. rewrite (spent_not_due _ _ Htm). exact IH.
Qed.

Lemma expire_spent (now : Z) (l : list Timer) :
  Forall spent l -> List.map (expire now) l = l.
Proof.
  induction 1 as [|tm l Htm _ IH]; [reflexivity|].
  simpl. unfold expire at 1. rewrite (spent_not_due _ _ Htm), IH. reflexivity.
Qed.

(** Stopping a spent timer, or a timer that is not there, changes
    nothing. *)
Lemma stop_spent (l : list Timer) (id : nat) :
  Forall spent l -> alter stop_timer id l = l.
Proof.
  intros H. revert id. induction H as [|tm l Htm _ IH]; intros id; [reflexivity|].
  destruct id as [|id]; simpl.
  - unfold stop_timer. unfold spent in Htm. destruct tm as [dl []]; simpl in *;
      congruence.
  - f_equal. apply IH.
Qed.

(** With every timer spent the runtime has nothing to do. *)
Lemma elapse_idle (now : Z) (rt : runtime) :
  Forall spent (timers rt) -> elapse now rt = rt.
Proof.
  intros H. unfold elapse.
  rewrite (filter_spent _ _ H), (expire_spent _ _ H).
  destruct rt. reflexivity.
Qed.

(** Before the pending timer's deadline the runtime has nothing to do. *)
Lemma elapse_early (delay last now : Z) (old : list Timer) (ran : list Z) :
  Forall spent old -> now < last + Z.max 0 delay ->
  elapse now (snd (armed delay last old ran)) = snd (armed delay last old ran).
Proof.
  intros Hold Hnow. unfold elapse, armed. simpl.
  rewrite List.filter_app, (filter_spent _ _ Hold), app_nil_l, List.map_app,
    (expire_spent _ _ Hold).
  simpl. unfold expire, is_due. simpl.
  destruct (last + Z.max 0 delay <=? now) eqn:E; [lia|]. reflexivity.
Qed.

(** From the deadline on the pending timer has fired, once. *)
Lemma elapse_late (delay last now : Z) (old : list Timer) (ran : list Z) :
  Forall spent old -> last + Z.max 0 delay <= now ->
  calls (elapse now (snd (armed delay last old ran)))
  = ran ++ [last + Z.max 0 delay].
Proof.
  intros Hold Hnow. unfold elapse, armed. simpl.
  rewrite List.filter_app, (filter_spent _ _ Hold).
  simpl. unfold is_due. simpl.
  destruct (last + Z.max 0 delay <=? now) eqn:E; [|lia]. reflexivity.
Qed.

(** The first Trigger of a run, on a debouncer none of whose timers is
    pending, arms a timer. *)
Lemma Trigger_idle (now : Z) (d : t) (rt : runtime) :
  Forall spent (timers rt) ->
  Trigger now (d, rt) = armed (delay d) now (timers rt) (calls rt).
Proof.
  intros H. unfold Trigger. rewrite (elapse_idle _ _ H).
  assert (Hstop : match timer d with
                  | Some tm => Timer_Stop tm rt
                  | None => rt
                  end = rt).
  { destruct (timer d) as [id|]; [|reflexivity].
    unfold Timer_Stop. rewrite (stop_spent _ _ H). destruct rt. reflexivity. }
  rewrite Hstop. reflexivity.
Qed.

(** One more Trigger within the delay stops the pending timer and arms a
    new one. *)
Lemma Trigger_armed (delay last now : Z) (old : list Timer) (ran : list Z) :
  Forall spent old -> last <= now -> now - last < delay ->
  Trigger now (armed delay last old ran)
  = armed delay now
      (old ++ [{| deadline := last + Z.max 0 delay; state := Stopped |}]) ran
  /\ Forall spent
       (old ++ [{| deadline := last + Z.max 0 delay; state := Stopped |}]).
Proof.
  intros Hold H1 H2. split.
  - pose proof (elapse_early delay last now old ran Hold ltac:(lia)) as E.
    unfold armed in *. cbn [snd] in E.
    unfold Trigger. rewrite E.
    unfold Timer_Stop, AfterFunc. cbn [timers calls Debouncer.delay timer].
    rewrite alter_app_r_alt by lia. rewrite Nat.sub_diag.
    cbn. rewrite !length_app. reflexivity.
  - apply Forall_app. split; [exact Hold|].
    constructor; [unfold spent; simpl; discriminate|constructor].
Qed.

Lemma triggers_armed (delay : Z) (ran : list Z) (ts : list Z) :
  forall (last : Z) (old : list Timer),
    Forall spent old -> spaced_within delay (last :: ts) ->
    exists old',
      triggers ts (armed delay last old ran)
      = armed delay (List.last ts last) old' ran
      /\ Forall spent old'.
Proof.
  induction ts as [|now ts IH]; intros last old Hold Hsp.
  - exists old. split; [reflexivity|exact Hold].
  - destruct Hsp as (H1 & H2 & Hsp).
    destruct (Trigger_armed delay last now old ran Hold H1 H2) as [Ht Hold'].
    destruct (IH now _ Hold' Hsp) as (old' & Hrun & Hold'').
    exists old'. split; [|exact Hold''].
    change (triggers (now :: ts) (armed delay last old ran))
      with (triggers ts (Trigger now (armed delay last old ran))).
    rewrite Ht, Hrun, last_cons_default. reflexivity.
Qed.

End DebouncerFacts.

(** C4.  Take a debouncer none of whose timers is pending (a new one, or
    one whose earlier triggers have fired or been stopped) and any run of
    Trigger calls on it, each less than delay after the one before.  At
    any instant before the last trigger plus delay the action has not run
    again; from that instant on it has run exactly once more, at that
    instant. *)
Theorem debounce_fires_once (d : Debouncer.t) (rt : Debouncer.runtime)
    (t0 : Z) (ts : list Z) (now : Z) :
  Forall spent (Debouncer.timers rt) ->
  Debouncer.spaced_within (Debouncer.delay d) (t0 :: ts) ->
  let last := List.last ts t0 in
  let due := last + Z.max 0 (Debouncer.delay d) in
  let st := Debouncer.triggers (t0 :: ts) (d, rt) in
  last + Debouncer.delay d <= due
  /\ (now < due -> Debouncer.fired_by now st = Debouncer.calls rt)
  /\ (due <= now -> Debouncer.fired_by now st = Debouncer.calls rt ++ [due]).
Proof.
  intros Hidle Hsp. cbv zeta.
  change (Debouncer.triggers (t0 :: ts) (d, rt))
    with (Debouncer.triggers ts (Debouncer.Trigger t0 (d, rt))).
  rewrite (Trigger_idle t0 d rt Hidle).
  destruct (triggers_armed (Debouncer.delay d) (Debouncer.calls rt) ts t0
              (Debouncer.timers rt) Hidle Hsp) as (old & -> & Hold).
  unfold Debouncer.fired_by.
  split; [lia|split]; intros H.
  - rewrite (elapse_early _ _ _ _ _ Hold H). reflexivity.
  - apply (elapse_late _ _ _ _ _ Hold H).
Qed.

(** The debounce test: delay 50, triggers at 0 and 30; nothing has run at
    60, one run (at 80) by 100. *)
Lemma debounce_fires_once_witness :
  Debouncer.spaced_within 50 [0; 30]
  /\ Debouncer.fired_by 60
       (Debouncer.triggers [0; 30] (Debouncer.NewDebouncer 50, Debouncer.boot)) = []
  /\ Debouncer.fired_by 100
       (Debouncer.triggers [0; 30] (Debouncer.NewDebouncer 50, Debouncer.boot)) = [80].
Proof.
  assert (Hsp : Debouncer.spaced_within 50 [0; 30]) by (simpl; lia).
  split; [exact Hsp|].
  destruct (debounce_fires_once (Debouncer.NewDebouncer 50) Debouncer.boot
              0 [30] 60 (List.Forall_nil _) Hsp) as (_ & H60 & _).
  destruct (debounce_fires_once (Debouncer.NewDebouncer 50) Debouncer.boot
              0 [30] 100 (List.Forall_nil _) Hsp) as (_ & _ & H100).
  split; [apply H60; simpl; lia|apply H100; simpl; lia].
Defined.

(* --------------------------------------------------------------------- *)
(*  commitAndPush                                                          *)
(* --------------------------------------------------------------------- *)

Lemma skipn_length_app {A} (h l : list A) : skipn (List.length h) (h ++ l) = l.
Proof. induction h as [|x h IH]; [reflexivity|exact IH]. Qed.

Lemma Format_15_04_05_example :
  GitOps.Format_15_04_05 (GitOps.mkClock 14 5 9) = "14:05:09"
  /\ GitOps.Format_15_04_05 (GitOps.mkClock 0 0 0) = "00:00:00"
  /\ GitOps.Format_15_04_05 (GitOps.mkClock 23 59 59) = "23:59:59".
Proof. repeat split. Qed.

(** The time stamp is always eight bytes, HH:MM:SS. *)
Lemma Format_15_04_05_length (now : GitOps.wallclock) :
  String.length (GitOps.Format_15_04_05 now) = 8%nat.
Proof. reflexivity. Qed.

(** C5 as stated fails: where the commit command itself fails, no commit
    is made, no push is attempted and the run returns the commit error. *)
Lemma commitAndPush_commit_failure : ~ commitAndPush_as_stated.
Proof.
  intros H.
  destruct (H git_without_identity (GitOps.mkClock 14 5 9) session fresh_world
              eq_refl) as (_ & _ & Hc).
  destruct Hc as (_ & Hcommit & _); [discriminate|].
  discriminate Hcommit.
Qed.

(** C5, amended.  Every run first runs `add -A`; if that fails the run
    returns the error "git add: ..." and runs nothing else.  If then
    `diff --cached --quiet` exits 0 the run returns success without running
    commit.  Otherwise it runs `commit -m "mob: auto-save at HH:MM:SS"`
    once; if that fails the run returns the error "git commit: ..." without
    pushing; if it succeeds the run attempts `push -u origin <branch>` and
    returns success whether or not the push fails, a failure being logged
    at warn. *)
Theorem commitAndPush_outcomes (git : GitOps.git_tool) (now : GitOps.wallclock)
    (g : GitOps.t) (w : GitOps.world) :
  let r := GitOps.commitAndPush git now g w in
  let h := GitOps.invoked w in
  hd_error (run_of w (snd r)) = Some (add_cmd g)
  /\ match add_answer git g h with
     | Some e => fst r = Some (Wrapped "git add" e) /\ run_of w (snd r) = [add_cmd g]
     | None =>
         match diff_answer git g h with
         | None => fst r = None /\ run_of w (snd r) = [add_cmd g; diff_cmd g]
         | Some _ =>
             match commit_answer git g now h with
             | Some e =>
                 fst r = Some (Wrapped "git commit" e)
                 /\ run_of w (snd r) = [add_cmd g; diff_cmd g; commit_cmd g now]
             | None =>
                 fst r = None
                 /\ run_of w (snd r)
                    = [add_cmd g; diff_cmd g; commit_cmd g now; push_cmd g]
                 /\ (push_answer git g now h <> None ->
                     In (GitOps.Warn, "Push failed (no remote?)")
                        (GitOps.logged (snd r)))
             end
         end
     end.
Proof.
  cbv zeta.
  unfold add_answer, diff_answer, commit_answer, push_answer, run_of.
  unfold GitOps.commitAndPush, GitOps.runGit.
  fold (add_cmd g) (diff_cmd g) (commit_cmd g now) (push_cmd g).
  destruct (git (GitOps.invoked w) (add_cmd g)) as [oa [ea|]]; cbn.
  { rewrite skipn_length_app. split; [reflexivity|split; reflexivity]. }
  destruct (git (GitOps.invoked w ++ [add_cmd g]) (diff_cmd g)) as [od [ed|]]; cbn.
  2:{ rewrite <- ?app_assoc; cbn [app]. rewrite skipn_length_app.
      split; [reflexivity|split; reflexivity]. }
  rewrite <- ?app_assoc; cbn [app].
  destruct (git (GitOps.invoked w ++ [add_cmd g; diff_cmd g]) (commit_cmd g now))
    as [oc [ec|]]; cbn.
  { rewrite <- ?app_assoc; cbn [app]. rewrite skipn_length_app.
    split; [reflexivity|split; reflexivity]. }
  rewrite <- ?app_assoc; cbn [app].
  destruct (git (GitOps.invoked w ++ [add_cmd g; diff_cmd g; commit_cmd g now])
              (push_cmd g)) as [op [ep|]]; cbn.
  - rewrite <- ?app_assoc; cbn [app]. rewrite skipn_length_app.
    split; [reflexivity|split; [reflexivity|split; [reflexivity|]]].
    intros _. apply in_or_app. right. right. left. reflexivity.
  - rewrite <- ?app_assoc; cbn [app]. rewrite skipn_length_app.
    split; [reflexivity|split; [reflexivity|split; [reflexivity|]]].
    intros Hp. congruence.
Qed.

(** A run with changes and no reachable remote commits, tries to push,
    logs the failure and succeeds. *)
Lemma commitAndPush_outcomes_witness :
  let r := GitOps.commitAndPush git_without_remote (GitOps.mkClock 14 5 9)
             session fresh_world in
  fst r = None
  /\ GitOps.invoked (snd r)
     = [ GitOps.mkCommand "/ws" ["add"; "-A"];
         GitOps.mkCommand "/ws" ["diff"; "--cached"; "--quiet"];
         GitOps.mkCommand "/ws" ["commit"; "-m"; "mob: auto-save at 14:05:09"];
         GitOps.mkCommand "/ws" ["push"; "-u"; "origin"; "mob/session-1a2b3c4d"] ]
  /\ In (GitOps.Warn, "Push failed (no remote?)") (GitOps.logged (snd r)).
Proof.
  cbv zeta.
  pose proof (commitAndPush_outcomes git_without_remote (GitOps.mkClock 14 5 9)
                session fresh_world) as H.
  cbv zeta in H. destruct H as (_ & H).
  change (add_answer git_without_remote session (GitOps.invoked fresh_world))
    with (@None error) in H.
  change (diff_answer git_without_remote session (GitOps.invoked fresh_world))
    with (Some (exit_status 1)) in H.
  change (commit_answer git_without_remote session (GitOps.mkClock 14 5 9)
            (GitOps.invoked fresh_world)) with (@None error) in H.
  cbv beta iota in H. destruct H as (H1 & H2 & H3).
  split; [exact H1|split; [exact H2|]].
  apply H3. discriminate.
Defined.
